(** * strawberryfields.parameters: measured and free Operation parameters

    A shallow embedding of [strawberryfields/parameters.py] together with the
    fragment of the symbolic engine (Sympy) that the module drives:
    interned symbols, expression trees, [atoms], [evalf], the [is_real] and
    [is_integer] assumptions and the conversions to Python numbers.

    Python objects that are mutated or shared (the RegRef instances, the
    [regref] attribute of an interned symbol) live in an explicit store that
    every operation threads through a state-and-exception monad. *)

From Stdlib Require Import ZArith Bool List.
From stdpp Require Import base option list gmap strings pretty.

Set Warnings "-register-all".

Open Scope Z_scope.

(** ** Binary floating point numbers, as mpmath stores them *)

Module Mpf.

(** A finite binary float [man * 2^exp]; [man] is odd or the number is
    [fzero].  Python floats and Sympy Floats are both carried this way;
    infinities, nan and the sign of zero are not represented, and the
    exponent is not bounded. *)
Record mpf : Type := mk { man : Z; exp : Z }.

#[global] Instance mpf_eq_dec : EqDecision mpf.
Proof. solve_decision. Defined.

Definition fzero : mpf := mk 0 0.
Definition fone : mpf := mk 1 0.

Definition is_zero (x : mpf) : bool := man x =? 0.

Definition bitcount (m : Z) : Z :=
  if m =? 0 then 0 else Z.log2 (Z.abs m) + 1.

(** Strip trailing zero bits of a mantissa, adjusting the exponent. *)
Fixpoint strip (p : positive) (e : Z) : positive * Z :=
  match p with
  | xO p' => strip p' (e + 1)
  | _ => (p, e)
  end.

(** Round [m >= 0] to nearest, ties to even, dropping [shift > 0] bits. *)
Definition round_nearest (m shift : Z) : Z :=
  let q := Z.shiftr m shift in
  let r := Z.land m (Z.ones shift) in
  let half := Z.shiftl 1 (shift - 1) in
  if (half <? r) || ((r =? half) && Z.odd q) then q + 1 else q.

(** mpmath's [normalize]: round to [prec] bits, then strip zeros. *)
Definition normalize (m e prec : Z) : mpf :=
  let a := Z.abs m in
  let bc := bitcount a in
  let '(a1, e1) :=
    if prec <? bc then (round_nearest a (bc - prec), e + (bc - prec))
    else (a, e) in
  match a1 with
  | Zpos p => let '(p', e') := strip p e1 in mk (Z.sgn m * Zpos p') e'
  | _ => fzero
  end.

Definition from_int (z prec : Z) : mpf := normalize z 0 prec.

Definition add (x y : mpf) (prec : Z) : mpf :=
  let e := Z.min (exp x) (exp y) in
  normalize (Z.shiftl (man x) (exp x - e) + Z.shiftl (man y) (exp y - e)) e prec.

Definition mul (x y : mpf) (prec : Z) : mpf :=
  normalize (man x * man y) (exp x + exp y) prec.

Definition neg (x : mpf) : mpf := mk (- man x) (exp x).

(** The integer a float denotes when its exponent is non-negative;
    otherwise truncation towards zero, as Python's [int()] does. *)
Definition to_int (x : mpf) : Z :=
  if 0 <=? exp x then Z.shiftl (man x) (exp x)
  else Z.quot (man x) (Z.shiftl 1 (- exp x)).

End Mpf.

Export Mpf.

(** ** Python values *)

(** Immediate numbers: [int], [float] and [complex]. *)
Inductive pynum : Type :=
| PyInt (z : Z)
| PyFloat (x : mpf)
| PyComplex (re im : mpf).

#[global] Instance pynum_eq_dec : EqDecision pynum.
Proof. solve_decision. Defined.

(** ** The symbolic engine's expression trees

    [Integer], [Float] and [ImaginaryUnit] are the engine's numbers; the two
    symbol classes of the module are leaves identified by class and name
    (the engine interns symbols: [Symbol.__new__] returns the cached object
    for a given class and name, and [Basic.__eq__] compares class and
    name); [Add] and [Mul] carry their [args] tuple.  This is the fragment
    of sums and products; powers and function applications, which the
    engine evaluates by rules of their own, are not represented. *)
Inductive Basic : Type :=
| Integer (z : Z)
| Float (x : mpf)
| ImaginaryUnit
| MeasuredParameter (name : string)
| FreeParameter (name : string)
| Add (args : list Basic)
| Mul (args : list Basic).

(** Objects that reach the functions of the module: numbers, NumPy arrays
    (which are not [collections.abc.Sequence]s), engine expressions, and the
    two built-in sequences. *)
Inductive pyobj : Type :=
| Num (n : pynum)
| NdArray (shape : list nat) (data : list pynum)
| Sym (e : Basic)
| PyList (items : list pyobj)
| PyTuple (items : list pyobj).

(** Modelled from the spec: the RegRef class is declared outside this
    module; it has an integer index [ind], a flag [active] and an optional
    measurement result [val] ([None] until the subsystem is measured). *)
Record RegRef : Type := mkRegRef {
  ind : Z;
  active : bool;
  val : option pynum
}.

#[global] Instance RegRef_eq_dec : EqDecision RegRef.
Proof. solve_decision. Defined.

(** RegRef objects are referred to by their identity. *)
Abbreviation ref := nat (only parsing).

(** The store: the RegRef objects, the [regref] attribute of each interned
    [MeasuredParameter] symbol and the [owner] attribute of each interned
    [FreeParameter] symbol (a Program identity or [None]), both keyed by
    the symbol's name. *)
Record state : Type := mkState {
  regrefs : gmap ref RegRef;
  regref_attr : gmap string ref;
  owner_attr : gmap string (option nat)
}.

Inductive exn : Type :=
| ParameterError
| ValueError
| TypeError
| AttributeError
| IndexError.

#[global] Instance exn_eq_dec : EqDecision exn.
Proof. solve_decision. Defined.

(** ** State and exception monad *)

Definition M (A : Type) : Type := state -> state * (exn + A).

#[global] Instance M_ret : MRet M := fun A (a : A) st => (st, inr a).

#[global] Instance M_bind : MBind M := fun A B (k : A -> M B) (c : M A) st =>
  match c st with
  | (st', inl e) => (st', inl e)
  | (st', inr a) => k a st'
  end.

Definition raise {A : Type} (e : exn) : M A := fun st => (st, inl e).
Definition get_state : M state := fun st => (st, inr st).
Definition put_state (st' : state) : M unit := fun _ => (st', inr tt).

(** Monadic [map] over a list, left to right. *)
Fixpoint mapM {A B : Type} (f : A -> M B) (l : list A) : M (list B) :=
  match l with
  | [] => mret []
  | a :: l' => b ← f a; bs ← mapM f l'; mret (b :: bs)
  end.

(** ** The engine operations the module calls *)

Module Sympy.

(** Binary precision of [evalf()] with its default of 15 digits. *)
Definition prec : Z := 53.

(** [sympy.Number(obj)]: an [int] gives an [Integer], a [float] a [Float];
    a [complex] is refused with [TypeError]. *)
Definition Number (obj : pynum) : M Basic :=
  match obj with
  | PyInt z => mret (Integer z)
  | PyFloat x => mret (Float x)
  | PyComplex _ _ => raise TypeError
  end.

(** [p.atoms(MeasuredParameter)]: the leaves of that class anywhere in the
    tree, as a set; a symbol is represented by its name. *)
Fixpoint atoms_MeasuredParameter (p : Basic) : gset string :=
  match p with
  | MeasuredParameter name => {[ name ]}
  | Add args | Mul args =>
      foldr (fun a acc => atoms_MeasuredParameter a ∪ acc) ∅ args
  | _ => ∅
  end.

(** What numeric evaluation of a subtree gives: real and imaginary part,
    or a tree that still contains unbound symbols. *)
Inductive evalf_result : Type :=
| Numeric (re im : mpf)
| Symbolic (e : Basic).

(** The expression [evalf()] assembles from a numeric result: exact zero
    parts become [S.Zero], the others [Float]s at [prec] bits. *)
Definition of_complex (re im : mpf) : Basic :=
  let re' := normalize (man re) (exp re) prec in
  let im' := normalize (man im) (exp im) prec in
  let r := if is_zero re' then Integer 0 else Float re' in
  if is_zero im' then r
  else if is_zero re' then Mul [Float im'; ImaginaryUnit]
  else Add [r; Mul [Float im'; ImaginaryUnit]].

Definition to_Basic (r : evalf_result) : Basic :=
  match r with
  | Numeric re im => of_complex re im
  | Symbolic e => e
  end.

(** All results numeric: their values; otherwise [None]. *)
Fixpoint all_numeric (rs : list evalf_result) : option (list (mpf * mpf)) :=
  match rs with
  | [] => Some []
  | Numeric re im :: rs' => option_map (cons (re, im)) (all_numeric rs')
  | Symbolic _ :: _ => None
  end.

(** Complex sum and product at the working precision.  The engine tracks
    the accuracy of a sum and may differ from these in the last bits and
    when terms cancel; apart from the worked examples, no theorem about
    sums and products depends on the value computed here. *)
Definition cadd (x y : mpf * mpf) : mpf * mpf :=
  (Mpf.add (fst x) (fst y) (prec + 4), Mpf.add (snd x) (snd y) (prec + 4)).

Definition cmul (x y : mpf * mpf) : mpf * mpf :=
  (Mpf.add (Mpf.mul (fst x) (fst y) (prec + 4))
           (Mpf.neg (Mpf.mul (snd x) (snd y) (prec + 4))) (prec + 4),
   Mpf.add (Mpf.mul (fst x) (snd y) (prec + 4))
           (Mpf.mul (snd x) (fst y) (prec + 4)) (prec + 4)).

(** Combine the evaluated arguments of an [Add] or [Mul]: fold the
    numbers, or rebuild the node when a symbol is left. *)
Definition combine (node : list Basic -> Basic)
    (op : mpf * mpf -> mpf * mpf -> mpf * mpf) (unit : mpf * mpf)
    (rs : list evalf_result) : evalf_result :=
  match all_numeric rs with
  | Some zs => let z := foldr op unit zs in Numeric (fst z) (snd z)
  | None => Symbolic (node (map to_Basic rs))
  end.

(** [Expr.evalf()] on the fragment.  A symbol class that overrides
    [_eval_evalf] is evaluated through that hook, and the number the hook
    returns is converted to binary floating point like any other number;
    a plain symbol has no value and is left in place.  The arguments of a
    node are evaluated left to right, so the first exception met is the
    one raised. *)
Fixpoint evalf_rec (hook : string -> M Basic) (e : Basic) : M evalf_result :=
  match e with
  | Integer z => mret (Numeric (from_int z (prec + 4)) fzero)
  | Float x => mret (Numeric x fzero)
  | ImaginaryUnit => mret (Numeric fzero fone)
  | MeasuredParameter name =>
      xe ← hook name;
      match xe with
      | Integer z => mret (Numeric (from_int z (prec + 4)) fzero)
      | Float x => mret (Numeric x fzero)
      | _ => mret (Symbolic xe)
      end
  | FreeParameter _ => mret (Symbolic e)
  | Add args => rs ← mapM (evalf_rec hook) args; mret (combine Add cadd (fzero, fzero) rs)
  | Mul args => rs ← mapM (evalf_rec hook) args; mret (combine Mul cmul (fone, fzero) rs)
  end.

(** The value [evalf()] returns: the [Float]s assembled by [of_complex]
    for a numeric result, the partly evaluated tree otherwise. *)
Definition evalf (hook : string -> M Basic) (e : Basic) : M Basic :=
  r ← evalf_rec hook e; mret (to_Basic r).

(** The assumptions [is_real] and [is_integer] are three-valued:
    [Some true], [Some false] or [None] (unknown).  [fuzzy_group] is the
    rule for a sum: all true gives true, an unknown gives unknown, exactly
    one false among known values gives false. *)
Definition fuzzy_group (vs : list (option bool)) : option bool :=
  if forallb (fun v => bool_decide (v = Some true)) vs then Some true
  else if existsb (fun v => bool_decide (v = None)) vs then None
  else if (length (filter (fun v => v = Some false) vs) =? 1)%nat then Some false
  else None.

(** [is_real]: numbers are real, the imaginary unit is not, a symbol
    declared without assumptions is unknown; a product of known factors is
    real when a factor is zero or the imaginary units pair up. *)
Fixpoint is_real (p : Basic) : option bool :=
  match p with
  | Integer _ | Float _ => Some true
  | ImaginaryUnit => Some false
  | MeasuredParameter _ | FreeParameter _ => None
  | Add args => fuzzy_group (map is_real args)
  | Mul args =>
      let known a :=
        match a with ImaginaryUnit => true | _ => bool_decide (is_real a = Some true) end in
      let imag a := match a with ImaginaryUnit => true | _ => false end in
      let zero a :=
        match a with Integer 0 => true | Float x => is_zero x | _ => false end in
      if negb (forallb known args) then None
      else if existsb zero args then Some true
      else Some (Nat.even (length (filter (fun a => imag a = true) args)))
  end.

(** [is_integer]: an [Integer] is one; for a [Float] the engine answers
    true for zero only ([Float._eval_is_integer] compares the stored value
    with zero), so [Float 3.0] is not an integer for it. *)
Fixpoint is_integer (p : Basic) : option bool :=
  match p with
  | Integer _ => Some true
  | Float x => Some (is_zero x)
  | ImaginaryUnit => Some false
  | MeasuredParameter _ | FreeParameter _ => None
  | Add args | Mul args =>
      if forallb (fun a => bool_decide (is_integer a = Some true)) args
      then Some true else None
  end.

(** Python truth value of an assumption: [None] and [False] are false. *)
Definition truthy (v : option bool) : bool :=
  match v with Some true => true | _ => false end.

(** Real and imaginary part of an evaluated number; [None] for a tree
    that is not one of the forms [of_complex] builds. *)
Definition as_real_imag (p : Basic) : option (mpf * mpf) :=
  match p with
  | Integer z => Some (from_int z prec, fzero)
  | Float x => Some (x, fzero)
  | ImaginaryUnit => Some (fzero, fone)
  | Mul [Float y; ImaginaryUnit] => Some (fzero, y)
  | Add [Integer z; Mul [Float y; ImaginaryUnit]] => Some (from_int z prec, y)
  | Add [Float x; Mul [Float y; ImaginaryUnit]] => Some (x, y)
  | _ => None
  end.

(** [complex(p)], [int(p)] and [float(p)]: [TypeError] on an expression
    that is not a number, and for [float] on a number that is not real. *)
Definition complex_ (p : Basic) : M pynum :=
  match as_real_imag p with
  | Some (re, im) => mret (PyComplex re im)
  | None => raise TypeError
  end.

Definition int_ (p : Basic) : M pynum :=
  match p with
  | Integer z => mret (PyInt z)
  | Float x => mret (PyInt (to_int x))
  | _ => raise TypeError
  end.

Definition float_ (p : Basic) : M pynum :=
  match as_real_imag p with
  | Some (re, im) => if is_zero im then mret (PyFloat re) else raise TypeError
  | None => raise TypeError
  end.

End Sympy.

Import Sympy.

(** ** parameters.py *)

(** [is_symbolic_par]: [isinstance(p, sympy.Basic)]. *)
Definition is_symbolic_par (p : pyobj) : bool :=
  match p with
  | Sym _ => true
  | _ => false
  end.

(** [isinstance(params, Sequence)]: lists and tuples; arrays are not. *)
Definition is_Sequence (params : pyobj) : bool :=
  match params with
  | PyList _ | PyTuple _ => true
  | _ => false
  end.

Definition items_of (params : pyobj) : list pyobj :=
  match params with
  | PyList l | PyTuple l => l
  | _ => []
  end.

(** Reading the attribute [self.regref] of the symbol called [name];
    [AttributeError] when [__init__] never set it. *)
Definition getattr_regref (name : string) : M ref :=
  st ← get_state;
  match regref_attr st !! name with
  | Some r => mret r
  | None => raise AttributeError
  end.

(** Following a reference to its RegRef object.  Python references are
    never dangling; outside the store the model raises [AttributeError]. *)
Definition load (r : ref) : M RegRef :=
  st ← get_state;
  match regrefs st !! r with
  | Some rr => mret rr
  | None => raise AttributeError
  end.

(** [MeasuredParameter.__new__]: the symbol named ['q'+str(regref.ind)];
    the arguments are not passed on to the engine. *)
Definition MeasuredParameter_name (regref : RegRef) : string :=
  "q" +:+ pretty (ind regref).

Definition MeasuredParameter_new (regref : RegRef) : Basic :=
  MeasuredParameter (MeasuredParameter_name regref).

(** [MeasuredParameter.__init__]: refuses an inactive RegRef, otherwise
    records the RegRef on the (interned) symbol. *)
Definition MeasuredParameter_init (name : string) (regref : ref) : M unit :=
  rr ← load regref;
  if negb (active rr) then raise ValueError
  else
    st ← get_state;
    put_state (mkState (regrefs st) (<[name := regref]> (regref_attr st)) (owner_attr st)).

(** The call [MeasuredParameter(regref)]: [__new__], then [__init__] on
    the object it returned. *)
Definition MeasuredParameter_call (regref : ref) : M Basic :=
  rr ← load regref;
  let obj := MeasuredParameter_new rr in
  _ ← MeasuredParameter_init (MeasuredParameter_name rr) regref;
  mret obj.

(** [MeasuredParameter._eval_evalf]. *)
Definition MeasuredParameter_eval_evalf (name : string) : M Basic :=
  regref ← getattr_regref name;
  rr ← load regref;
  match val rr with
  | None => raise ParameterError
  | Some res => Sympy.Number res
  end.

(** The call [FreeParameter(name)]: the interned symbol; [__init__] resets
    its owner. *)
Definition FreeParameter_call (name : string) : M Basic :=
  st ← get_state;
  _ ← put_state (mkState (regrefs st) (regref_attr st) (<[name := None]> (owner_attr st)));
  mret (FreeParameter name).

(** The local function [xxx] of [_evaluate]. *)
Definition xxx (p : pyobj) : M pyobj :=
  if negb (is_symbolic_par p) then mret p
  else
    match p with
    | Sym e =>
        p' ← evalf MeasuredParameter_eval_evalf e;
        if negb (truthy (is_real p')) then c ← complex_ p'; mret (Num c)
        else if truthy (is_integer p') then n ← int_ p'; mret (Num n)
        else x ← float_ p'; mret (Num x)
    | _ => mret p
    end.

Definition _evaluate (params : pyobj) : M pyobj :=
  let scalar := negb (is_Sequence params) in
  let params := if scalar then [params] else items_of params in
  ret ← mapM xxx params;
  if scalar then
    match ret with
    | r :: _ => mret r
    | [] => raise IndexError
    end
  else mret (PyList ret).

(** The loop of [get_measurement_deps]: [ret.add(k.regref)] for each [k]. *)
Fixpoint add_regrefs (ks : list string) (ret : gset ref) : M (gset ref) :=
  match ks with
  | [] => mret ret
  | k :: ks' => r ← getattr_regref k; add_regrefs ks' ({[ r ]} ∪ ret)
  end.

Definition get_measurement_deps (p : pyobj) : M (gset ref) :=
  if negb (is_symbolic_par p) then mret ∅
  else
    match p with
    | Sym e => add_regrefs (elements (atoms_MeasuredParameter e)) ∅
    | _ => mret ∅
    end.

(** ** Predicates used in the statements *)

(** [contains a e]: the leaf [a] occurs somewhere in the tree [e]. *)
Inductive contains (a : Basic) : Basic -> Prop :=
| contains_here : contains a a
| contains_Add args e : e ∈ args -> contains a e -> contains a (Add args)
| contains_Mul args e : e ∈ args -> contains a e -> contains a (Mul args).

(** Outcome and final store of a computation. *)
Definition outcome {A : Type} (c : M A) (st : state) : exn + A := snd (c st).
Definition final {A : Type} (c : M A) (st : state) : state := fst (c st).

(** A computation that only reads the store. *)
Definition pure {A : Type} (c : M A) : Prop := forall st, final c st = st.

Ltac unfold_monad :=
  unfold pure, final, outcome, mbind, M_bind, mret, M_ret, raise, get_state, put_state in *.

(** Outcome of a read-only sequence of computations. *)
Fixpoint collect {B : Type} (os : list (exn + B)) : exn + list B :=
  match os with
  | [] => inr []
  | inl x :: _ => inl x
  | inr b :: os' =>
      match collect os' with
      | inl x => inl x
      | inr bs => inr (b :: bs)
      end
  end.

(** The symbol [name] is bound to a RegRef that has no measurement yet. *)
Definition unresolved (st : state) (name : string) : Prop :=
  exists r rr,
    regref_attr st !! name = Some r /\ regrefs st !! r = Some rr /\ val rr = None.

(** The symbol [name] is bound to a RegRef whose value, if there is one,
    is an [int] or a [float]. *)
Definition real_valued (st : state) (name : string) : Prop :=
  exists r rr,
    regref_attr st !! name = Some r /\ regrefs st !! r = Some rr /\
    forall re im, val rr <> Some (PyComplex re im).

(** ** A small register used in the examples

    Three RegRefs: number 0 is not measured yet, number 1 holds the integer
    3, number 2 holds the float 0.5; the three symbols built from them. *)
Definition demo_regrefs : gmap ref RegRef :=
  {[ 0%nat := mkRegRef 0 true None;
     1%nat := mkRegRef 1 true (Some (PyInt 3));
     2%nat := mkRegRef 2 true (Some (PyFloat (Mpf.mk 1 (-1)))) ]}.

Definition demo_state : state :=
  mkState demo_regrefs {[ "q0" := 0%nat; "q1" := 1%nat; "q2" := 2%nat ]} ∅.

(** [q1 + 2*q2] and [q0 + 2*q1]. *)
Definition demo_sum : Basic :=
  Add [MeasuredParameter "q1"; Mul [Integer 2; MeasuredParameter "q2"]].

Definition demo_pending : Basic :=
  Add [MeasuredParameter "q0"; Mul [Integer 2; MeasuredParameter "q1"]].

(** What evaluation makes of a real number held as [x]: the integer zero
    when it rounds to zero, otherwise the float at [prec] bits. *)
Definition zero_or_float (x : mpf) : pynum :=
  let x' := normalize (man x) (exp x) prec in
  if is_zero x' then PyInt 0 else PyFloat x'.

(** [p] needs deferred evaluation: it is an engine expression in which a
    measured or a free atom occurs (the atom itself included). *)
Definition deferred (p : pyobj) : Prop :=
  exists e n, p = Sym e /\
    (contains (MeasuredParameter n) e \/ contains (FreeParameter n) e).

(** [p] is an immediate numeric value: a number or an array. *)
Definition is_fixed (p : pyobj) : bool :=
  match p with
  | Num _ | NdArray _ _ => true
  | _ => false
  end.

(** The store after [__init__] has recorded [regref] on the symbol. *)
Definition set_regref_attr (name : string) (regref : ref) (st : state) : state :=
  mkState (regrefs st) (<[name := regref]> (regref_attr st)) (owner_attr st).

(** Equality of two symbols as the engine decides it: same class and same
    hashable content, which for a symbol is its name. *)
Definition hashable_content (a : Basic) : option (string * string) :=
  match a with
  | MeasuredParameter name => Some ("MeasuredParameter", name)
  | FreeParameter name => Some ("FreeParameter", name)
  | _ => None
  end.

Definition symbols_equal (a b : Basic) : bool :=
  match hashable_content a, hashable_content b with
  | Some x, Some y => bool_decide (x = y)
  | _, _ => false
  end.


(** The write the executor performs when it measures a subsystem. *)
Definition set_val (r : ref) (v : pynum) (st : state) : state :=
  mkState (alter (fun rr => mkRegRef (ind rr) (active rr) (Some v)) r (regrefs st))
          (regref_attr st) (owner_attr st).

(** A register whose only subsystem has been measured and released. *)
Definition released_state : state :=
  mkState {[ 5%nat := mkRegRef 5 false (Some (PyInt 1)) ]} ∅ ∅.

(** ** Merging state preparations *)

(** Modelled from the spec: the Operation classes ([ops.py]) are not among
    the sources, only the test of [merge] on state preparations is.  An
    Operation has a class name, a kind and its parameters; a state
    preparation merged with a later state preparation on the same subsystem
    gives the later one, the earlier being discarded.  Merging a state
    preparation with anything else is not described and is reported as a
    merge failure. *)
Inductive op_kind : Type :=
| StatePreparation
| OtherOperation.

Record Operation : Type := mkOperation {
  op_name : string;
  kind : op_kind;
  par : list pyobj
}.

Inductive merge_result : Type :=
| Merged (op : Operation)
| MergeFailure.

Definition Preparation_merge (self other : Operation) : merge_result :=
  match kind other with
  | StatePreparation => Merged other
  | OtherOperation => MergeFailure
  end.

Definition Vacuum : Operation := mkOperation "Vacuum" StatePreparation [].

Definition Coherent (a p : pyobj) : Operation :=
  mkOperation "Coherent" StatePreparation [a; p].

(** Two RegRef objects that carry the same index 4. *)
Definition twin_state : state :=
  mkState {[ 7%nat := mkRegRef 4 true None;
             8%nat := mkRegRef 4 true (Some (PyInt 2)) ]} ∅ ∅.

(** A register in which subsystem 0 holds a complex (heterodyne) result and
    subsystem 1 is not measured yet, and the sum [q0 + q1]. *)
Definition mixed_state : state :=
  mkState {[ 0%nat := mkRegRef 0 true (Some (PyComplex Mpf.fone Mpf.fone));
             1%nat := mkRegRef 1 true None ]}
          {[ "q0" := 0%nat; "q1" := 1%nat ]} ∅.


(** The RegRef at [r] holds a real measurement result. *)
Definition measured_real (st : state) (r : ref) : Prop :=
  exists rr, regrefs st !! r = Some rr /\
    ((exists z, val rr = Some (PyInt z)) \/ (exists x, val rr = Some (PyFloat x))).

(** The write that releases or revives a subsystem: [regref.active = b]. *)
Definition set_active (r : ref) (b : bool) (st : state) : state :=
  mkState (alter (fun rr => mkRegRef (ind rr) b (val rr)) r (regrefs st))
          (regref_attr st) (owner_attr st).

(** The write by which a Program takes a free parameter: [p.owner = prog]. *)
Definition set_owner (name : string) (prog : nat) (st : state) : state :=
  mkState (regrefs st) (regref_attr st) (<[name := Some prog]> (owner_attr st)).

(** ** Structure of expression trees *)

(** Induction over [Basic] with the hypothesis for every argument of a
    node. *)
Section Basic_induction.
Variable P : Basic -> Prop.
Hypothesis HInteger : forall z, P (Integer z).
Hypothesis HFloat : forall x, P (Float x).
Hypothesis HImaginaryUnit : P ImaginaryUnit.
Hypothesis HMeasured : forall name, P (MeasuredParameter name).
Hypothesis HFree : forall name, P (FreeParameter name).
Hypothesis HAdd : forall args, Forall P args -> P (Add args).
Hypothesis HMul : forall args, Forall P args -> P (Mul args).

Fixpoint Basic_tree_ind (e : Basic) : P e :=
  let fix go (l : list Basic) : Forall P l :=
    match l with
    | [] => @Stdlib.Lists.List.Forall_nil _ P
    | a :: l' => @Stdlib.Lists.List.Forall_cons _ P a l' (Basic_tree_ind a) (go l')
    end in
  match e with
  | Integer z => HInteger z
  | Float x => HFloat x
  | ImaginaryUnit => HImaginaryUnit
  | MeasuredParameter name => HMeasured name
  | FreeParameter name => HFree name
  | Add args => HAdd args (go args)
  | Mul args => HMul args (go args)
  end.
End Basic_induction.


Lemma pure_ret {A : Type} (a : A) : pure (mret a : M A).
Proof. by unfold_monad. Qed.

Lemma pure_raise {A : Type} (e : exn) : pure (raise e : M A).
Proof. by unfold_monad. Qed.

Lemma pure_bind {A B : Type} (c : M A) (k : A -> M B) :
  pure c -> (forall a, pure (k a)) -> pure (c ≫= k).
Proof.
  unfold_monad. intros Hc Hk st. specialize (Hc st).
  destruct (c st) as [st' [e|a]]; simpl in *; subst; [done|apply Hk].
Qed.

Lemma pure_mapM {A B : Type} (f : A -> M B) (l : list A) :
  Forall (fun a => pure (f a)) l -> pure (mapM f l).
Proof.
  induction 1 as [|a l Ha _ IH]; simpl.
  - apply pure_ret.
  - apply pure_bind; [done|]. intros b. apply pure_bind; [done|].
    intros bs. apply pure_ret.
Qed.

Create HintDb pure.
#[local] Hint Resolve pure_ret pure_raise : pure.

Lemma pure_getattr_regref name : pure (getattr_regref name).
Proof. unfold getattr_regref. intros st. unfold_monad. by destruct (_ !! _). Qed.

Lemma pure_load r : pure (load r).
Proof. unfold load. intros st. unfold_monad. by destruct (_ !! _). Qed.

Lemma pure_Number obj : pure (Sympy.Number obj).
Proof. destruct obj; simpl; auto with pure. Qed.

Lemma pure_eval_evalf name : pure (MeasuredParameter_eval_evalf name).
Proof.
  unfold MeasuredParameter_eval_evalf.
  apply pure_bind; [apply pure_getattr_regref|]. intros r.
  apply pure_bind; [apply pure_load|]. intros rr.
  destruct (val rr); [apply pure_Number|apply pure_raise].
Qed.

Lemma pure_evalf_rec e : pure (evalf_rec MeasuredParameter_eval_evalf e).
Proof.
  induction e as [z|x| |name|name|args IH|args IH] using Basic_tree_ind; simpl;
    auto with pure.
  - apply pure_bind; [apply pure_eval_evalf|]. intros xe.
    destruct xe; auto with pure.
  - apply pure_bind; [by apply pure_mapM|]. intros rs. apply pure_ret.
  - apply pure_bind; [by apply pure_mapM|]. intros rs. apply pure_ret.
Qed.

Lemma pure_xxx p : pure (xxx p).
Proof.
  destruct p; unfold xxx; simpl; auto with pure.
  apply pure_bind.
  { unfold evalf. apply pure_bind; [apply pure_evalf_rec|]. auto with pure. }
  intros p'. unfold complex_, int_, float_.
  repeat case_match; repeat (apply pure_bind; [|intros ?]); auto with pure.
Qed.

Lemma pure_evaluate params : pure (_evaluate params).
Proof.
  unfold _evaluate. apply pure_bind.
  - apply pure_mapM, Forall_forall. intros p _. apply pure_xxx.
  - intros ret. repeat case_match; auto with pure.
Qed.

Lemma pure_add_regrefs ks ret : pure (add_regrefs ks ret).
Proof.
  revert ret. induction ks as [|k ks IH]; intros ret; simpl; auto with pure.
  apply pure_bind; [apply pure_getattr_regref|]. intros r. apply IH.
Qed.

Lemma pure_get_measurement_deps p : pure (get_measurement_deps p).
Proof.
  unfold get_measurement_deps. destruct p; simpl; auto with pure.
  apply pure_add_regrefs.
Qed.


Lemma outcome_bind {A B : Type} (c : M A) (k : A -> M B) st :
  pure c ->
  outcome (c ≫= k) st =
    match outcome c st with
    | inl x => inl x
    | inr a => outcome (k a) st
    end.
Proof.
  unfold_monad. intros Hc. specialize (Hc st).
  destruct (c st) as [st' [x|a]]; simpl in *; by subst.
Qed.

Lemma outcome_mapM {A B : Type} (f : A -> M B) (l : list A) st :
  (forall a, pure (f a)) ->
  outcome (mapM f l) st = collect (map (fun a => outcome (f a) st) l).
Proof.
  intros Hf. induction l as [|a l IH]; simpl; [done|].
  rewrite outcome_bind by done.
  destruct (outcome (f a) st) as [x|b]; [done|].
  rewrite outcome_bind by (apply pure_mapM, Forall_forall; auto).
  rewrite IH. by destruct (collect _).
Qed.

Lemma collect_raises {B : Type} (os : list (exn + B)) :
  (exists x, inl x ∈ os) -> exists x, collect os = inl x.
Proof.
  intros [x Hx]. induction os as [|o os IH]; [by apply elem_of_nil in Hx|].
  apply elem_of_cons in Hx. destruct o as [y|b]; simpl; [eauto|].
  destruct Hx as [?|Hx]; [done|]. destruct (IH Hx) as [y ->]. eauto.
Qed.

Lemma collect_only {B : Type} (x : exn) (os : list (exn + B)) :
  Forall (fun o => forall y, o = inl y -> y = x) os ->
  forall y, collect os = inl y -> y = x.
Proof.
  induction 1 as [|o os Ho _ IH]; simpl; [done|].
  destruct o as [z|b]; intros y Hy.
  - apply Ho. congruence.
  - destruct (collect os); [apply IH; congruence|done].
Qed.

Lemma collect_length {B : Type} (os : list (exn + B)) bs :
  collect os = inr bs -> length bs = length os.
Proof.
  revert bs. induction os as [|[x|b] os IH]; intros bs; simpl; [by intros [= <-]|done|].
  destruct (collect os) as [|bs'] eqn:E; [done|].
  intros [= <-]. simpl. f_equal. by apply IH.
Qed.

Lemma collect_lookup {B : Type} (os : list (exn + B)) bs :
  collect os = inr bs -> forall i, os !! i = inr <$> (bs !! i).
Proof.
  revert bs. induction os as [|[x|b] os IH]; intros bs; simpl.
  - by intros [= <-] i.
  - done.
  - destruct (collect os) as [|bs'] eqn:E; [done|].
    intros [= <-] [|i]; simpl; [done|]. by apply IH.
Qed.

Lemma collect_all_values {B : Type} (bs : list B) :
  collect (map inr bs) = inr bs.
Proof. induction bs as [|b bs IH]; simpl; [done|]. by rewrite IH. Qed.

(** ** Evaluation of measured parameters *)


Lemma eval_evalf_unresolved st name :
  unresolved st name ->
  outcome (MeasuredParameter_eval_evalf name) st = inl ParameterError.
Proof.
  intros (r & rr & Hr & Hrr & Hv).
  unfold MeasuredParameter_eval_evalf, getattr_regref, load. unfold_monad.
  simpl. rewrite Hr. simpl. rewrite Hrr. simpl. by rewrite Hv.
Qed.

Lemma eval_evalf_real_valued st name y :
  real_valued st name ->
  outcome (MeasuredParameter_eval_evalf name) st = inl y -> y = ParameterError.
Proof.
  intros (r & rr & Hr & Hrr & Hv).
  unfold MeasuredParameter_eval_evalf, getattr_regref, load. unfold_monad.
  simpl. rewrite Hr. simpl. rewrite Hrr. simpl.
  destruct (val rr) as [[z|x|re im]|] eqn:E; simpl; try congruence.
Qed.

Lemma evalf_rec_raises st name e :
  unresolved st name ->
  contains (MeasuredParameter name) e ->
  exists x, outcome (evalf_rec MeasuredParameter_eval_evalf e) st = inl x.
Proof.
  intros Hun Hc.
  induction Hc as [|args e Hin _ IH|args e Hin _ IH]; simpl.
  - rewrite outcome_bind by apply pure_eval_evalf.
    rewrite eval_evalf_unresolved by done. eauto.
  - rewrite outcome_bind by (apply pure_mapM, Forall_forall; intros; apply pure_evalf_rec).
    rewrite outcome_mapM by apply pure_evalf_rec.
    destruct IH as [x Hx].
    destruct (collect_raises (map (fun a => outcome (evalf_rec MeasuredParameter_eval_evalf a) st) args)) as [y ->]; [|eauto].
    exists x. rewrite <- Hx. apply list_elem_of_fmap. eauto.
  - rewrite outcome_bind by (apply pure_mapM, Forall_forall; intros; apply pure_evalf_rec).
    rewrite outcome_mapM by apply pure_evalf_rec.
    destruct IH as [x Hx].
    destruct (collect_raises (map (fun a => outcome (evalf_rec MeasuredParameter_eval_evalf a) st) args)) as [y ->]; [|eauto].
    exists x. rewrite <- Hx. apply list_elem_of_fmap. eauto.
Qed.

Lemma evalf_rec_only_ParameterError st e :
  (forall n, contains (MeasuredParameter n) e -> real_valued st n) ->
  forall y, outcome (evalf_rec MeasuredParameter_eval_evalf e) st = inl y ->
            y = ParameterError.
Proof.
  induction e as [z|x| |name|name|args IH|args IH] using Basic_tree_ind;
    intros Hreal y; simpl; try (unfold_monad; simpl; congruence).
  - rewrite outcome_bind by apply pure_eval_evalf.
    destruct (outcome (MeasuredParameter_eval_evalf name) st) as [x|xe] eqn:E.
    + intros [= <-]. eapply eval_evalf_real_valued; [|done].
      apply Hreal. constructor.
    + destruct xe; unfold_monad; simpl; congruence.
  - rewrite outcome_bind by (apply pure_mapM, Forall_forall; intros; apply pure_evalf_rec).
    rewrite outcome_mapM by apply pure_evalf_rec.
    destruct (collect _) as [x|rs] eqn:E; [|unfold_monad; simpl; congruence].
    intros [= <-]. eapply collect_only; [|exact E].
    apply Forall_fmap, Forall_forall. intros a Ha. simpl.
    rewrite Forall_forall in IH. apply IH; [done|].
    intros n Hn. apply Hreal. by eapply contains_Add.
  - rewrite outcome_bind by (apply pure_mapM, Forall_forall; intros; apply pure_evalf_rec).
    rewrite outcome_mapM by apply pure_evalf_rec.
    destruct (collect _) as [x|rs] eqn:E; [|unfold_monad; simpl; congruence].
    intros [= <-]. eapply collect_only; [|exact E].
    apply Forall_fmap, Forall_forall. intros a Ha. simpl.
    rewrite Forall_forall in IH. apply IH; [done|].
    intros n Hn. apply Hreal. by eapply contains_Mul.
Qed.

(** A scalar goes through [xxx] once; the one-element list is unwrapped. *)
Lemma evaluate_scalar p st :
  is_Sequence p = false -> _evaluate p st = xxx p st.
Proof.
  intros Hp. unfold _evaluate. rewrite Hp. simpl. unfold_monad.
  by destruct (xxx p st) as [st' [x|v]].
Qed.

Lemma xxx_unresolved st name e :
  unresolved st name ->
  contains (MeasuredParameter name) e ->
  (forall n, n <> name -> contains (MeasuredParameter n) e -> real_valued st n) ->
  outcome (xxx (Sym e)) st = inl ParameterError.
Proof.
  intros Hun Hc Hothers. unfold xxx. simpl. unfold evalf.
  rewrite outcome_bind
    by (apply pure_bind; [apply pure_evalf_rec|intros; apply pure_ret]).
  rewrite outcome_bind by apply pure_evalf_rec.
  destruct (evalf_rec_raises st name e Hun Hc) as [x Hx]. rewrite Hx.
  f_equal. eapply evalf_rec_only_ParameterError; [|exact Hx].
  intros n Hn. destruct (decide (n = name)) as [->|Hne]; [|by apply Hothers].
  destruct Hun as (r & rr & Hr & Hrr & Hv). exists r, rr.
  repeat split; [done..|]. intros re im. by rewrite Hv.
Qed.


(** ** Measurement dependencies *)

Lemma atoms_args n (args : list Basic) :
  n ∈ foldr (fun a acc => atoms_MeasuredParameter a ∪ acc) ∅ args <->
  exists a, a ∈ args /\ n ∈ atoms_MeasuredParameter a.
Proof.
  induction args as [|a args IH]; simpl.
  - split; [set_solver|]. intros (a & Ha & _). by apply elem_of_nil in Ha.
  - rewrite elem_of_union, IH. split.
    + intros [H|(b & Hb & Hn)]; [exists a|exists b]; split; auto; apply elem_of_cons; auto.
    + intros (b & Hb & Hn). apply elem_of_cons in Hb as [->|Hb]; eauto.
Qed.

(** [atoms] finds exactly the measured leaves of the tree. *)
Lemma atoms_contains n e :
  n ∈ atoms_MeasuredParameter e <-> contains (MeasuredParameter n) e.
Proof.
  induction e as [z|x| |name|name|args IH|args IH] using Basic_tree_ind; simpl.
  1-3, 5: split; [set_solver|inversion 1].
  - rewrite elem_of_singleton. split; [intros ->; constructor|by inversion 1].
  - rewrite atoms_args. rewrite Forall_forall in IH. split.
    + intros (a & Ha & Hn). apply contains_Add with a; [done|]. by apply IH.
    + inversion 1 as [|args' a Ha Hc|]; subst. exists a. split; [done|]. by apply IH.
  - rewrite atoms_args. rewrite Forall_forall in IH. split.
    + intros (a & Ha & Hn). apply contains_Mul with a; [done|]. by apply IH.
    + inversion 1 as [| |args' a Ha Hc]; subst. exists a. split; [done|]. by apply IH.
Qed.

Lemma add_regrefs_spec st (ks : list string) (ret : gset ref) :
  Forall (fun k => is_Some (regref_attr st !! k)) ks ->
  exists deps,
    add_regrefs ks ret st = (st, inr deps) /\
    forall r, r ∈ deps <-> r ∈ ret \/ exists k, k ∈ ks /\ regref_attr st !! k = Some r.
Proof.
  intros Hks. revert ret. induction Hks as [|k ks [r0 Hk] _ IH]; intros ret; simpl.
  - exists ret. split; [done|]. intros r. split; [auto|].
    intros [?|(k & Hk & _)]; [done|]. by apply elem_of_nil in Hk.
  - destruct (IH ({[ r0 ]} ∪ ret)) as (deps & Hrun & Hdeps).
    exists deps. split.
    + unfold getattr_regref. unfold_monad. simpl. by rewrite Hk.
    + intros r. rewrite Hdeps, elem_of_union, elem_of_singleton. split.
      * intros [[->|?]|(k' & Hk' & Hr)]; auto; right;
          [exists k|exists k']; split; auto; apply elem_of_cons; auto.
      * intros [?|(k' & Hk' & Hr)]; auto.
        apply elem_of_cons in Hk' as [->|Hk']; [|eauto].
        left. left. congruence.
Qed.

Lemma add_regrefs_unbound st (ks : list string) (ret : gset ref) k :
  k ∈ ks -> regref_attr st !! k = None ->
  add_regrefs ks ret st = (st, inl AttributeError).
Proof.
  intros Hin Hk. revert ret. induction ks as [|k' ks IH]; intros ret.
  - by apply elem_of_nil in Hin.
  - simpl. unfold getattr_regref. unfold_monad. simpl.
    destruct (regref_attr st !! k') as [r|] eqn:E; simpl; [|done].
    apply elem_of_cons in Hin as [->|Hin]; [congruence|]. by apply IH.
Qed.

(** C3. [get_measurement_deps p] returns exactly the RegRefs of the
    measured atoms that occur anywhere in the expression tree of [p],
    however deeply nested, and the empty set when [p] is not symbolic.
    (Every measured atom of [p] carries its [regref] attribute, as it does
    once the constructor has returned it.) *)
Theorem get_measurement_deps_exact (st : state) (p : pyobj) :
  (forall e n, p = Sym e -> contains (MeasuredParameter n) e ->
               is_Some (regref_attr st !! n)) ->
  exists deps : gset ref,
    get_measurement_deps p st = (st, inr deps) /\
    (forall r, r ∈ deps <->
       exists e n, p = Sym e /\ contains (MeasuredParameter n) e /\
                   regref_attr st !! n = Some r) /\
    (is_symbolic_par p = false -> deps = ∅).
Proof.
  intros Hbound. destruct p as [v|sh d|e|l|l];
    try (exists ∅; split; [done|]; split; [|done];
         intros r; split; [set_solver|by intros (e & n & ? & _)]).
  unfold get_measurement_deps. simpl.
  destruct (add_regrefs_spec st (elements (atoms_MeasuredParameter e)) ∅)
    as (deps & Hrun & Hdeps).
  { apply Forall_forall. intros k Hk. apply (Hbound e k eq_refl).
    by apply atoms_contains, elem_of_elements. }
  exists deps. split; [done|]. split; [|done].
  intros r. rewrite Hdeps. split.
  - intros [?|(k & Hk & Hr)]; [set_solver|].
    exists e, k. split; [done|]. split; [|done].
    by apply atoms_contains, elem_of_elements.
  - intros (e' & n & [= <-] & Hc & Hr). right. exists n. split; [|done].
    by apply elem_of_elements, atoms_contains.
Qed.

Lemma get_measurement_deps_exact_witness :
  exists deps : gset ref,
    get_measurement_deps (Sym demo_sum) demo_state = (demo_state, inr deps) /\
    (forall r, r ∈ deps <->
       exists e n, Sym demo_sum = Sym e /\ contains (MeasuredParameter n) e /\
                   regref_attr demo_state !! n = Some r) /\
    (is_symbolic_par (Sym demo_sum) = false -> deps = ∅).
Proof.
  apply (get_measurement_deps_exact demo_state (Sym demo_sum)).
  intros e n [= <-] Hc. apply atoms_contains, elem_of_elements in Hc.
  set (ks := elements _) in Hc. vm_compute in ks. subst ks.
  repeat (apply elem_of_cons in Hc as [->|Hc]; [by eexists|]).
  by apply elem_of_nil in Hc.
Defined.

(** The dependencies of [q1 + 2*q2] are the two RegRefs, and a number has
    none. *)
Example get_measurement_deps_sum :
  outcome (get_measurement_deps (Sym demo_sum)) demo_state = inr {[ 1%nat; 2%nat ]} /\
  outcome (get_measurement_deps (Num (PyInt 7))) demo_state = inr ∅.
Proof. split; vm_compute; reflexivity. Qed.



(** The atom alone: no condition on anything else. *)
Example unresolved_atom_raises st name r rr :
  regref_attr st !! name = Some r -> regrefs st !! r = Some rr -> val rr = None ->
  _evaluate (Sym (MeasuredParameter name)) st = (st, inl ParameterError).
Proof.
  intros Hr Hrr Hv.
  assert (H1 : outcome (xxx (Sym (MeasuredParameter name))) st = inl ParameterError).
  { apply xxx_unresolved with name; [by exists r, rr|constructor|by inversion 2]. }
  assert (H2 := pure_xxx (Sym (MeasuredParameter name)) st).
  rewrite evaluate_scalar by done. unfold outcome, final in *.
  destruct (xxx _ st); simpl in *; congruence.
Qed.

(** ** Evaluation of a measured atom whose value is known *)

Lemma normalize_nonzero m e p :
  m <> 0 -> 0 < p -> is_zero (normalize m e p) = false.
Proof.
  intros Hm Hp. unfold normalize, is_zero.
  set (a := Z.abs m). assert (Ha : 0 < a) by (unfold a; lia).
  set (bc := bitcount a).
  assert (Hbc : bc = Z.log2 a + 1).
  { unfold bc, bitcount. destruct (a =? 0) eqn:E; [lia|]. by rewrite Z.abs_eq by lia. }
  assert (Hpos : forall a1 e1,
    0 < a1 ->
    (man (match a1 with
          | Z.pos p0 => let '(p', e') := strip p0 e1 in mk (Z.sgn m * Z.pos p') e'
          | _ => fzero
          end) =? 0) = false).
  { intros a1 e1 Ha1. destruct a1 as [|p0|p0]; try lia.
    destruct (strip p0 e1) as [p' e']. simpl. apply Z.eqb_neq.
    destruct m; simpl; lia. }
  destruct (p <? bc) eqn:E; [|by apply Hpos].
  apply Hpos. apply Z.ltb_lt in E.
  unfold round_nearest.
  assert (1 <= Z.shiftr a (bc - p)).
  { rewrite Z.shiftr_div_pow2 by lia.
    apply Z.div_le_lower_bound; [apply Z.pow_pos_nonneg; lia|].
    rewrite Z.mul_1_r.
    transitivity (2 ^ Z.log2 a); [apply Z.pow_le_mono_r; lia|].
    apply Z.log2_spec. lia. }
  case_match; lia.
Qed.

(** The value of a measured atom goes through [Number], [evalf] and the
    three-way conversion of [xxx]. *)
Lemma measured_atom_value st name r rr v :
  regref_attr st !! name = Some r ->
  regrefs st !! r = Some rr ->
  val rr = Some v ->
  outcome (_evaluate (Sym (MeasuredParameter name))) st =
    match v with
    | PyInt z => inr (Num (zero_or_float (from_int z (prec + 4))))
    | PyFloat x => inr (Num (zero_or_float x))
    | PyComplex _ _ => inl TypeError
    end.
Proof.
  intros Hr Hrr Hv. unfold outcome. rewrite evaluate_scalar by done.
  unfold xxx, evalf. simpl. unfold MeasuredParameter_eval_evalf, getattr_regref, load.
  unfold_monad. simpl. rewrite Hr. simpl. rewrite Hrr. simpl. rewrite Hv.
  destruct v as [z|x|re im]; simpl; [| |done].
  - unfold of_complex, zero_or_float.
    change (is_zero (normalize (man fzero) (exp fzero) prec)) with true. simpl.
    destruct (is_zero (normalize _ _ prec)) eqn:E; simpl; [done|].
    by rewrite E.
  - unfold of_complex, zero_or_float.
    change (is_zero (normalize (man fzero) (exp fzero) prec)) with true. simpl.
    destruct (is_zero (normalize _ _ prec)) eqn:E; simpl; [done|].
    by rewrite E.
Qed.

(** A nonzero integer value never comes back as an integer. *)
Lemma measured_nonzero_int_is_float st name r rr z :
  regref_attr st !! name = Some r ->
  regrefs st !! r = Some rr ->
  val rr = Some (PyInt z) ->
  z <> 0 ->
  exists x, outcome (_evaluate (Sym (MeasuredParameter name))) st = inr (Num (PyFloat x)).
Proof.
  intros Hr Hrr Hv Hz.
  rewrite (measured_atom_value st name r rr _ Hr Hrr Hv).
  unfold zero_or_float.
  assert (H57 : is_zero (from_int z (prec + 4)) = false)
    by (apply normalize_nonzero; [done|by vm_compute]).
  rewrite normalize_nonzero; [eauto| |by vm_compute].
  unfold is_zero in H57. by apply Z.eqb_neq in H57.
Qed.

(** Evaluation reads the RegRef each time: the atom that could not be
    evaluated gets its value once the measurement is recorded. *)
Example evaluation_follows_the_register :
  outcome (_evaluate (Sym (MeasuredParameter "q0"))) demo_state = inl ParameterError /\
  outcome (_evaluate (Sym (MeasuredParameter "q0"))) (set_val 0%nat (PyInt 2) demo_state)
    = inr (Num (PyFloat (Mpf.mk 1 1))).
Proof. split; by vm_compute. Qed.

(** C2. With the recorded value 3, an integer, the evaluation of the
    measured parameter returns the float 3.0: [evalf] turns every nonzero
    number into a [Float], whose [is_integer] is false, so the integer
    branch of [xxx] is taken for zero only. *)
Theorem measured_three_evaluates_to_float :
  outcome (_evaluate (Sym (MeasuredParameter "q1"))) demo_state
    = inr (Num (PyFloat (Mpf.mk 3 0))) /\
  outcome (_evaluate (Sym (MeasuredParameter "q1"))) demo_state
    <> inr (Num (PyInt 3)).
Proof. split; [by vm_compute|by vm_compute]. Qed.

(** ** Free parameters *)

(** C4, as the code has it. A free parameter that was never substituted
    cannot be evaluated, but the failure is the [TypeError] of the engine's
    conversion to [complex]: [evalf] leaves the symbol in place, its
    [is_real] is unknown, and [complex()] refuses an expression. *)
Theorem free_parameter_raises_TypeError (st : state) (name : string) :
  _evaluate (Sym (FreeParameter name)) st = (st, inl TypeError) /\
  outcome (a ← FreeParameter_call name; _evaluate (Sym a)) st = inl TypeError.
Proof. split; reflexivity. Qed.

(** C4 fails as stated: the exception is not [ParameterError]. *)
Lemma free_parameter_not_ParameterError :
  outcome (_evaluate (Sym (FreeParameter "x"))) demo_state <> inl ParameterError.
Proof. vm_compute. discriminate. Qed.

(** ** Symbolic parameters *)

(** C6, as the code has it. [is_symbolic_par p] holds exactly when [p] is
    an expression of the symbolic engine: it holds for every measured or
    free atom and every expression containing one, and it is false for
    every immediate number or array. *)
Theorem is_symbolic_par_iff_engine_expression (p : pyobj) :
  (is_symbolic_par p = true <-> exists e, p = Sym e) /\
  (deferred p -> is_symbolic_par p = true) /\
  (is_fixed p = true -> is_symbolic_par p = false).
Proof.
  split; [|split].
  - split; [destruct p; try discriminate; eauto|by intros [e ->]].
  - by intros (e & n & -> & _).
  - by destruct p.
Qed.

Lemma is_symbolic_par_iff_engine_expression_witness :
  is_symbolic_par (Sym demo_sum) = true /\ is_symbolic_par (Num (PyInt 7)) = false.
Proof.
  destruct (is_symbolic_par_iff_engine_expression (Sym demo_sum)) as (_ & H1 & _).
  destruct (is_symbolic_par_iff_engine_expression (Num (PyInt 7))) as (_ & _ & H2).
  split; [|by apply H2].
  apply H1. exists demo_sum, "q1". split; [reflexivity|]. left.
  apply contains_Add with (MeasuredParameter "q1"); [apply elem_of_cons; by left|constructor].
Defined.

(** C6 fails as stated: the engine's zero, which is what [q - q] simplifies
    to, is symbolic for [is_symbolic_par] although no atom occurs in it. *)
Lemma is_symbolic_par_not_iff_deferred :
  ~ (is_symbolic_par (Sym (Integer 0)) = true <-> deferred (Sym (Integer 0))).
Proof.
  intros [H _]. destruct (H eq_refl) as (e & n & [= <-] & [Hc|Hc]); inversion Hc.
Qed.

(** ** Construction of measured parameters *)

(** C7. Constructing a measured parameter from an inactive RegRef raises
    [ValueError] in the constructor call itself and leaves the store as it
    was; from an active RegRef the call returns the atom and records the
    RegRef on it, whether or not a measurement value is present. *)
Theorem MeasuredParameter_call_checks_active (st : state) (r : ref) (rr : RegRef) :
  regrefs st !! r = Some rr ->
  (active rr = false -> MeasuredParameter_call r st = (st, inl ValueError)) /\
  (active rr = true ->
     MeasuredParameter_call r st =
       (set_regref_attr (MeasuredParameter_name rr) r st,
        inr (MeasuredParameter (MeasuredParameter_name rr)))).
Proof.
  intros Hrr. unfold MeasuredParameter_call, MeasuredParameter_init, load.
  unfold_monad. simpl. rewrite Hrr. simpl. rewrite Hrr. simpl.
  split; intros ->; reflexivity.
Qed.

Lemma MeasuredParameter_call_checks_active_witness :
  MeasuredParameter_call 5%nat released_state = (released_state, inl ValueError) /\
  MeasuredParameter_call 0%nat demo_state =
    (set_regref_attr "q0" 0%nat demo_state, inr (MeasuredParameter "q0")) /\
  MeasuredParameter_call 1%nat demo_state =
    (set_regref_attr "q1" 1%nat demo_state, inr (MeasuredParameter "q1")).
Proof.
  split; [|split].
  - apply (MeasuredParameter_call_checks_active released_state 5%nat
             (mkRegRef 5 false (Some (PyInt 1)))); reflexivity.
  - apply (MeasuredParameter_call_checks_active demo_state 0%nat (mkRegRef 0 true None));
      reflexivity.
  - apply (MeasuredParameter_call_checks_active demo_state 1%nat
             (mkRegRef 1 true (Some (PyInt 3)))); reflexivity.
Defined.

(** ** Shape of the result of [_evaluate] *)




Lemma evaluate_sequence params st :
  is_Sequence params = true ->
  outcome (_evaluate params) st =
    match collect (map (fun p => outcome (xxx p) st) (items_of params)) with
    | inl x => inl x
    | inr vs => inr (PyList vs)
    end.
Proof.
  intros Hs. unfold _evaluate. rewrite Hs. simpl.
  rewrite outcome_bind by (apply pure_mapM, Forall_forall; intros; apply pure_xxx).
  rewrite outcome_mapM by apply pure_xxx.
  by destruct (collect _).
Qed.



(** ** Names and equality of measured atoms *)

Lemma MeasuredParameter_name_inj (rr1 rr2 : RegRef) :
  MeasuredParameter_name rr1 = MeasuredParameter_name rr2 -> ind rr1 = ind rr2.
Proof.
  unfold MeasuredParameter_name. simpl. intros [= H]. by apply (inj pretty).
Qed.

Lemma symbols_equal_refl_measured name :
  symbols_equal (MeasuredParameter name) (MeasuredParameter name) = true.
Proof. unfold symbols_equal. simpl. by apply bool_decide_eq_true_2. Qed.

Lemma MeasuredParameter_call_value st r rr a :
  regrefs st !! r = Some rr ->
  outcome (MeasuredParameter_call r) st = inr a ->
  a = MeasuredParameter (MeasuredParameter_name rr) /\ active rr = true.
Proof.
  intros Hrr. unfold outcome, MeasuredParameter_call, MeasuredParameter_init, load.
  unfold_monad. simpl. rewrite Hrr. simpl. rewrite Hrr. simpl.
  destruct (active rr); simpl; [|done]. by intros [= <-].
Qed.

Lemma MeasuredParameter_call_active st r rr :
  regrefs st !! r = Some rr ->
  active rr = true ->
  MeasuredParameter_call r st =
    (set_regref_attr (MeasuredParameter_name rr) r st,
     inr (MeasuredParameter (MeasuredParameter_name rr))).
Proof.
  intros Hrr Hact. unfold MeasuredParameter_call, MeasuredParameter_init, load.
  unfold_monad. simpl. rewrite Hrr. simpl. rewrite Hrr. simpl. by rewrite Hact.
Qed.

(** C8. Two measured atoms constructed from one RegRef, at any two moments
    (the RegRef keeps its index), carry the same name ['q'+str(ind)]; the
    name determines the index, different indices giving different names;
    and the engine's equality on symbols holds between the two atoms. *)
Theorem measured_atoms_of_one_regref_equal
    (st st' : state) (r : ref) (rr rr' : RegRef) (a a' : Basic) :
  regrefs st !! r = Some rr ->
  regrefs st' !! r = Some rr' ->
  ind rr' = ind rr ->
  outcome (MeasuredParameter_call r) st = inr a ->
  outcome (MeasuredParameter_call r) st' = inr a' ->
  a = MeasuredParameter ("q" +:+ pretty (ind rr)) /\
  a' = a /\
  symbols_equal a a' = true /\
  (forall other : RegRef,
     MeasuredParameter_name other = MeasuredParameter_name rr <-> ind other = ind rr).
Proof.
  intros Hrr Hrr' Hind Ha Ha'.
  destruct (MeasuredParameter_call_value _ _ _ _ Hrr Ha) as [-> _].
  destruct (MeasuredParameter_call_value _ _ _ _ Hrr' Ha') as [-> _].
  unfold MeasuredParameter_name. rewrite Hind.
  split; [done|]. split; [done|]. split; [apply symbols_equal_refl_measured|].
  intros other. split; [apply MeasuredParameter_name_inj|by intros ->].
Qed.

Lemma measured_atoms_of_one_regref_equal_witness :
  MeasuredParameter "q1" = MeasuredParameter ("q" +:+ pretty (1 : Z)) /\
  MeasuredParameter "q1" = MeasuredParameter "q1" /\
  symbols_equal (MeasuredParameter "q1") (MeasuredParameter "q1") = true /\
  (forall other : RegRef,
     MeasuredParameter_name other
       = MeasuredParameter_name (mkRegRef 1 true (Some (PyInt 3)))
     <-> ind other = 1).
Proof.
  apply (measured_atoms_of_one_regref_equal
           demo_state (set_regref_attr "q1" 1%nat demo_state) 1%nat
           (mkRegRef 1 true (Some (PyInt 3))) (mkRegRef 1 true (Some (PyInt 3)))
           (MeasuredParameter "q1") (MeasuredParameter "q1")); reflexivity.
Defined.

(** C10. Two different RegRef objects with the same index, both active,
    give equal measured atoms: the atom is made from the index alone, and
    the engine compares symbols by class and name. *)
Theorem measured_atoms_same_index_equal
    (st : state) (r1 r2 : ref) (rr1 rr2 : RegRef) :
  r1 <> r2 ->
  regrefs st !! r1 = Some rr1 ->
  regrefs st !! r2 = Some rr2 ->
  ind rr1 = ind rr2 ->
  active rr1 = true ->
  active rr2 = true ->
  exists a1 a2 st1 st2,
    MeasuredParameter_call r1 st = (st1, inr a1) /\
    MeasuredParameter_call r2 st1 = (st2, inr a2) /\
    a1 = a2 /\
    symbols_equal a1 a2 = true.
Proof.
  intros Hne H1 H2 Hind Hact1 Hact2.
  exists (MeasuredParameter (MeasuredParameter_name rr1)),
         (MeasuredParameter (MeasuredParameter_name rr2)),
         (set_regref_attr (MeasuredParameter_name rr1) r1 st),
         (set_regref_attr (MeasuredParameter_name rr2) r2
            (set_regref_attr (MeasuredParameter_name rr1) r1 st)).
  split; [by apply MeasuredParameter_call_active|]. split.
  - by apply MeasuredParameter_call_active.
  - unfold MeasuredParameter_name. rewrite Hind.
    split; [done|apply symbols_equal_refl_measured].
Qed.

Lemma measured_atoms_same_index_equal_witness :
  exists a1 a2 st1 st2,
    MeasuredParameter_call 7%nat twin_state = (st1, inr a1) /\
    MeasuredParameter_call 8%nat st1 = (st2, inr a2) /\
    a1 = a2 /\
    symbols_equal a1 a2 = true.
Proof.
  apply (measured_atoms_same_index_equal twin_state 7%nat 8%nat
           (mkRegRef 4 true None) (mkRegRef 4 true (Some (PyInt 2))));
    [discriminate|reflexivity..].
Defined.

(** The symbol being interned, the second construction rebinds the
    [regref] attribute of the one shared atom. *)
Lemma interned_symbol_rebinds (st : state) (r1 r2 : ref) (rr1 rr2 : RegRef) :
  regrefs st !! r1 = Some rr1 ->
  regrefs st !! r2 = Some rr2 ->
  ind rr1 = ind rr2 ->
  active rr1 = true ->
  active rr2 = true ->
  exists st2 a,
    (_ ← MeasuredParameter_call r1; MeasuredParameter_call r2) st = (st2, inr a) /\
    outcome (get_measurement_deps (Sym a)) st2 = inr {[ r2 ]}.
Proof.
  intros H1 H2 Hind Hact1 Hact2.
  exists (set_regref_attr (MeasuredParameter_name rr2) r2
            (set_regref_attr (MeasuredParameter_name rr1) r1 st)),
         (MeasuredParameter (MeasuredParameter_name rr2)).
  split.
  - unfold mbind, M_bind.
    rewrite (MeasuredParameter_call_active st r1 rr1 H1 Hact1).
    by apply MeasuredParameter_call_active.
  - unfold outcome, get_measurement_deps. simpl.
    rewrite elements_singleton. simpl. unfold getattr_regref. unfold_monad. simpl.
    rewrite lookup_insert_eq. simpl. f_equal. apply (right_id_L ∅ (∪)).
Qed.

(** ** State preparations *)

(** C9. Merging two state preparations gives the later one, whichever
    comes first: [A.merge(B) == B] and [B.merge(A) == A]. *)
Theorem Preparation_merge_returns_later (A B : Operation) :
  kind A = StatePreparation ->
  kind B = StatePreparation ->
  Preparation_merge A B = Merged B /\ Preparation_merge B A = Merged A.
Proof. intros HA HB. unfold Preparation_merge. by rewrite HA, HB. Qed.

Lemma Preparation_merge_returns_later_witness :
  Preparation_merge (Coherent (Num (PyInt 1)) (Num (PyInt 0))) Vacuum = Merged Vacuum /\
  Preparation_merge Vacuum (Coherent (Num (PyInt 1)) (Num (PyInt 0)))
    = Merged (Coherent (Num (PyInt 1)) (Num (PyInt 0))).
Proof.
  apply (Preparation_merge_returns_later
           (Coherent (Num (PyInt 1)) (Num (PyInt 0))) Vacuum); reflexivity.
Defined.

(** ** Further properties of evaluation *)

(** X1. Neither [_evaluate] nor [get_measurement_deps] ever writes the
    store, whatever the input and whether they return or raise: no RegRef
    and no symbol attribute changes, and evaluating again meets the same
    outcome. *)
Theorem evaluation_never_writes (params : pyobj) (st : state) :
  final (_evaluate params) st = st /\
  final (get_measurement_deps params) st = st /\
  outcome (_evaluate params) (final (_evaluate params) st)
    = outcome (_evaluate params) st.
Proof.
  assert (H := pure_evaluate params st).
  split; [done|]. split; [apply pure_get_measurement_deps|by rewrite H].
Qed.

Lemma collect_raises_inv {B : Type} (os : list (exn + B)) x :
  collect os = inl x -> inl x ∈ os.
Proof.
  induction os as [|[y|b] os IH]; simpl; [done| |].
  - intros [= <-]. apply elem_of_cons. by left.
  - destruct (collect os); [|done]. intros [= <-].
    apply elem_of_cons. right. by apply IH.
Qed.

Lemma eval_evalf_ParameterError_inv st name :
  outcome (MeasuredParameter_eval_evalf name) st = inl ParameterError ->
  unresolved st name.
Proof.
  unfold MeasuredParameter_eval_evalf, getattr_regref, load, unresolved.
  unfold_monad. simpl.
  destruct (regref_attr st !! name) as [r|] eqn:Hr; simpl; [|done].
  destruct (regrefs st !! r) as [rr|] eqn:Hrr; simpl; [|done].
  destruct (val rr) as [[z|x|re im]|] eqn:Hv; simpl; try done.
  intros _. by exists r, rr.
Qed.

Lemma evalf_rec_ParameterError_inv st e :
  outcome (evalf_rec MeasuredParameter_eval_evalf e) st = inl ParameterError ->
  exists name, contains (MeasuredParameter name) e /\ unresolved st name.
Proof.
  induction e as [z|x| |name|name|args IH|args IH] using Basic_tree_ind;
    simpl; try (unfold_monad; simpl; congruence).
  - rewrite outcome_bind by apply pure_eval_evalf.
    destruct (outcome (MeasuredParameter_eval_evalf name) st) as [x|xe] eqn:E.
    + intros [= ->]. exists name. split; [constructor|].
      by apply eval_evalf_ParameterError_inv.
    + destruct xe; unfold_monad; simpl; congruence.
  - rewrite outcome_bind by (apply pure_mapM, Forall_forall; intros; apply pure_evalf_rec).
    rewrite outcome_mapM by apply pure_evalf_rec.
    destruct (collect _) as [x|rs] eqn:E; [|unfold_monad; simpl; congruence].
    intros [= ->]. apply collect_raises_inv, list_elem_of_fmap in E as (a & Ha & Hin).
    rewrite Forall_forall in IH. destruct (IH a Hin (eq_sym Ha)) as (n & Hc & Hu).
    exists n. split; [by eapply contains_Add|done].
  - rewrite outcome_bind by (apply pure_mapM, Forall_forall; intros; apply pure_evalf_rec).
    rewrite outcome_mapM by apply pure_evalf_rec.
    destruct (collect _) as [x|rs] eqn:E; [|unfold_monad; simpl; congruence].
    intros [= ->]. apply collect_raises_inv, list_elem_of_fmap in E as (a & Ha & Hin).
    rewrite Forall_forall in IH. destruct (IH a Hin (eq_sym Ha)) as (n & Hc & Hu).
    exists n. split; [by eapply contains_Mul|done].
Qed.

Lemma xxx_ParameterError_inv st p :
  outcome (xxx p) st = inl ParameterError ->
  exists e name, p = Sym e /\ contains (MeasuredParameter name) e /\ unresolved st name.
Proof.
  destruct p as [n|sh d|e|l|l]; try (unfold outcome, xxx; simpl; congruence).
  intros H. destruct (evalf_rec_ParameterError_inv st e) as (name & Hc & Hu);
    [|by exists e, name].
  revert H. unfold xxx, evalf. simpl.
  rewrite outcome_bind
    by (apply pure_bind; [apply pure_evalf_rec|intros; apply pure_ret]).
  rewrite outcome_bind by apply pure_evalf_rec.
  destruct (outcome (evalf_rec _ e) st) as [x|r]; [by intros [= ->]|].
  unfold complex_, int_, float_, outcome. unfold_monad. simpl.
  repeat case_match; simpl; congruence.
Qed.

(** X2. [ParameterError] means an unavailable measurement and nothing
    else: when [_evaluate] raises it, the input, or one of the elements of
    the input sequence, is an expression in which a measured atom occurs
    whose RegRef has no value. *)
Theorem ParameterError_only_for_unresolved (params : pyobj) (st : state) :
  outcome (_evaluate params) st = inl ParameterError ->
  exists e name,
    (params = Sym e \/ Sym e ∈ items_of params) /\
    contains (MeasuredParameter name) e /\
    unresolved st name.
Proof.
  destruct (is_Sequence params) eqn:Hs.
  - rewrite evaluate_sequence by done.
    destruct (collect _) as [x|vs] eqn:E; [|done].
    intros [= ->]. apply collect_raises_inv, list_elem_of_fmap in E as (p & Hp & Hin).
    destruct (xxx_ParameterError_inv st p (eq_sym Hp)) as (e & name & -> & Hc & Hu).
    exists e, name. auto.
  - unfold outcome. rewrite evaluate_scalar by done. intros H.
    destruct (xxx_ParameterError_inv st params H) as (e & name & -> & Hc & Hu).
    exists e, name. auto.
Qed.

Lemma ParameterError_only_for_unresolved_witness :
  exists e name,
    (Sym demo_pending = Sym e \/ Sym e ∈ items_of (Sym demo_pending)) /\
    contains (MeasuredParameter name) e /\
    unresolved demo_state name.
Proof.
  apply (ParameterError_only_for_unresolved (Sym demo_pending) demo_state).
  by vm_compute.
Defined.

Lemma collect_app_raise {B : Type} (os1 os2 : list (exn + B)) x :
  Forall (fun o => exists b, o = inr b) os1 ->
  collect (os1 ++ inl x :: os2) = inl x.
Proof.
  induction 1 as [|o os1 [b ->] _ IH]; simpl; [done|]. by rewrite IH.
Qed.

(** X3. A sequence is evaluated element by element in order and all or
    nothing: the exception of the first element that cannot be evaluated
    is the outcome of the whole call, whatever follows it. *)
Theorem evaluate_stops_at_first_failure
    (st : state) (before after : list pyobj) (p : pyobj) (x : exn) :
  Forall (fun q => exists v, outcome (xxx q) st = inr v) before ->
  outcome (xxx p) st = inl x ->
  outcome (_evaluate (PyList (before ++ p :: after))) st = inl x /\
  outcome (_evaluate (PyTuple (before ++ p :: after))) st = inl x.
Proof.
  intros Hbefore Hp.
  assert (H : collect (map (fun q => outcome (xxx q) st) (before ++ p :: after)) = inl x).
  { rewrite map_app. simpl. rewrite Hp. apply collect_app_raise.
    apply Forall_fmap. eapply Forall_impl; [exact Hbefore|]. by intros q [v Hv]; exists v. }
  split; rewrite evaluate_sequence by done; simpl; by rewrite H.
Qed.

Lemma evaluate_stops_at_first_failure_witness :
  outcome (_evaluate (PyList ([Num (PyInt 1)] ++ Sym (FreeParameter "x")
                                :: [Sym (MeasuredParameter "q0")]))) demo_state
    = inl TypeError /\
  outcome (_evaluate (PyTuple ([Num (PyInt 1)] ++ Sym (FreeParameter "x")
                                 :: [Sym (MeasuredParameter "q0")]))) demo_state
    = inl TypeError.
Proof.
  apply (evaluate_stops_at_first_failure demo_state [Num (PyInt 1)]
           [Sym (MeasuredParameter "q0")] (Sym (FreeParameter "x")) TypeError).
  - constructor; [|constructor]. by exists (Num (PyInt 1)).
  - reflexivity.
Defined.

(** ** From construction to evaluation *)

Lemma MeasuredParameter_call_then {A : Type} st r rr (k : Basic -> M A) :
  regrefs st !! r = Some rr ->
  active rr = true ->
  (a ← MeasuredParameter_call r; k a) st =
    k (MeasuredParameter (MeasuredParameter_name rr))
      (set_regref_attr (MeasuredParameter_name rr) r st).
Proof.
  intros Hrr Hact. unfold mbind, M_bind.
  by rewrite (MeasuredParameter_call_active st r rr Hrr Hact).
Qed.

Lemma constructed_atom_value st r rr v :
  regrefs st !! r = Some rr ->
  active rr = true ->
  val rr = Some v ->
  outcome (a ← MeasuredParameter_call r; _evaluate (Sym a)) st =
    match v with
    | PyInt z => inr (Num (zero_or_float (from_int z (prec + 4))))
    | PyFloat x => inr (Num (zero_or_float x))
    | PyComplex _ _ => inl TypeError
    end.
Proof.
  intros Hrr Hact Hv. unfold outcome at 1.
  rewrite (MeasuredParameter_call_then st r rr) by done.
  apply (measured_atom_value _ _ r rr); [|done..].
  simpl. apply lookup_insert_eq.
Qed.

(** X4. A float recorded as the measurement result comes back unchanged:
    constructing the measured parameter of an active RegRef that holds
    the nonzero float [x] and evaluating it returns [x] itself. *)
Theorem measured_float_round_trip (st : state) (r : ref) (rr : RegRef) (x : mpf) :
  regrefs st !! r = Some rr ->
  active rr = true ->
  val rr = Some (PyFloat x) ->
  normalize (man x) (exp x) prec = x ->
  is_zero x = false ->
  outcome (a ← MeasuredParameter_call r; _evaluate (Sym a)) st = inr (Num (PyFloat x)).
Proof.
  intros Hrr Hact Hv Hnorm Hnz.
  rewrite (constructed_atom_value st r rr _ Hrr Hact Hv).
  unfold zero_or_float. by rewrite Hnorm, Hnz.
Qed.

Lemma measured_float_round_trip_witness :
  outcome (a ← MeasuredParameter_call 2%nat; _evaluate (Sym a)) demo_state
    = inr (Num (PyFloat (Mpf.mk 1 (-1)))).
Proof.
  apply (measured_float_round_trip demo_state 2%nat
           (mkRegRef 2 true (Some (PyFloat (Mpf.mk 1 (-1)))))); reflexivity.
Defined.

(** X5. A measurement result that is zero, recorded as the integer 0 or
    as a float zero, comes back as the integer 0. *)
Theorem measured_zero_is_integer_zero (st : state) (r : ref) (rr : RegRef) (v : pynum) :
  regrefs st !! r = Some rr ->
  active rr = true ->
  val rr = Some v ->
  v = PyInt 0 \/ (exists x, v = PyFloat x /\ is_zero x = true) ->
  outcome (a ← MeasuredParameter_call r; _evaluate (Sym a)) st = inr (Num (PyInt 0)).
Proof.
  intros Hrr Hact Hv Hzero.
  rewrite (constructed_atom_value st r rr _ Hrr Hact Hv).
  destruct Hzero as [->|(x & -> & Hx)]; [reflexivity|].
  unfold zero_or_float, is_zero in *. apply Z.eqb_eq in Hx. by rewrite Hx.
Qed.

Lemma measured_zero_is_integer_zero_witness :
  outcome (a ← MeasuredParameter_call 0%nat; _evaluate (Sym a))
          (set_val 0%nat (PyFloat Mpf.fzero) demo_state)
    = inr (Num (PyInt 0)).
Proof.
  apply (measured_zero_is_integer_zero (set_val 0%nat (PyFloat Mpf.fzero) demo_state)
           0%nat (mkRegRef 0 true (Some (PyFloat Mpf.fzero))) (PyFloat Mpf.fzero));
    [reflexivity..|].
  right. by exists Mpf.fzero.
Defined.

(** X6. A complex measurement result cannot be used: constructing the
    measured parameter succeeds, evaluating it raises [TypeError]. *)
Theorem measured_complex_raises_TypeError
    (st : state) (r : ref) (rr : RegRef) (re im : mpf) :
  regrefs st !! r = Some rr ->
  active rr = true ->
  val rr = Some (PyComplex re im) ->
  (exists a st', MeasuredParameter_call r st = (st', inr a)) /\
  outcome (a ← MeasuredParameter_call r; _evaluate (Sym a)) st = inl TypeError.
Proof.
  intros Hrr Hact Hv. split.
  - do 2 eexists. by apply MeasuredParameter_call_active.
  - by rewrite (constructed_atom_value st r rr _ Hrr Hact Hv).
Qed.

Lemma measured_complex_raises_TypeError_witness :
  (exists a st', MeasuredParameter_call 0%nat mixed_state = (st', inr a)) /\
  outcome (a ← MeasuredParameter_call 0%nat; _evaluate (Sym a)) mixed_state = inl TypeError.
Proof.
  apply (measured_complex_raises_TypeError mixed_state 0%nat
           (mkRegRef 0 true (Some (PyComplex Mpf.fone Mpf.fone))) Mpf.fone Mpf.fone);
    reflexivity.
Defined.

Lemma strip_spec p e :
  e <= snd (strip p e) /\
  Z.pos (fst (strip p e)) * 2 ^ (snd (strip p e) - e) = Z.pos p.
Proof.
  revert e. induction p as [p IH|p IH|]; intros e; simpl.
  - rewrite Z.sub_diag. simpl. lia.
  - destruct (IH (e + 1)) as [Hle Hval]. split; [lia|].
    replace (snd (strip p (e + 1)) - e) with (Z.succ (snd (strip p (e + 1)) - (e + 1))) by lia.
    rewrite Z.pow_succ_r by lia. lia.
  - rewrite Z.sub_diag. simpl. lia.
Qed.

(** A mantissa that fits the precision is kept exactly. *)
Lemma normalize_exact m e p :
  m <> 0 -> Z.abs m < 2 ^ p -> 0 < p ->
  e <= exp (normalize m e p) /\
  man (normalize m e p) * 2 ^ (exp (normalize m e p) - e) = m.
Proof.
  intros Hm Hlt Hp. unfold normalize.
  assert (Hbc : bitcount (Z.abs m) <= p).
  { unfold bitcount. destruct (Z.abs m =? 0) eqn:E; [lia|].
    rewrite (Z.abs_eq (Z.abs m)) by lia.
    assert (Z.log2 (Z.abs m) < p); [|lia].
    apply Z.log2_lt_pow2; lia. }
  destruct (p <? bitcount (Z.abs m)) eqn:E; [apply Z.ltb_lt in E; lia|].
  destruct (Z.abs m) as [|q|q] eqn:Hq; [lia| |lia].
  destruct (strip_spec q e) as [Hle Hval].
  destruct (strip q e) as [q' e']. simpl in *. split; [done|].
  rewrite <- Z.mul_assoc, Hval, <- Hq, Z.mul_comm. apply Z.abs_sgn.
Qed.

(** X7. An integer measurement result below [2^53] in magnitude keeps
    its value through evaluation, while its type changes: a nonzero
    integer [z] comes back as the float that equals [z] exactly. *)
Theorem measured_int_value_preserved (st : state) (r : ref) (rr : RegRef) (z : Z) :
  regrefs st !! r = Some rr ->
  active rr = true ->
  val rr = Some (PyInt z) ->
  z <> 0 ->
  Z.abs z < 2 ^ 53 ->
  exists x,
    outcome (a ← MeasuredParameter_call r; _evaluate (Sym a)) st = inr (Num (PyFloat x)) /\
    0 <= exp x /\
    man x * 2 ^ exp x = z.
Proof.
  intros Hrr Hact Hv Hz Hlt.
  rewrite (constructed_atom_value st r rr _ Hrr Hact Hv).
  unfold zero_or_float, from_int.
  destruct (normalize_exact z 0 (prec + 4)) as [Hle1 Hval1];
    [done|change (prec + 4) with 57; lia|done|].
  set (x1 := normalize z 0 (prec + 4)) in *.
  rewrite Z.sub_0_r in Hval1.
  assert (Hpow : 1 <= 2 ^ exp x1) by (apply Z.pow_le_mono_r with (b := 0); lia).
  assert (Hman : man x1 <> 0) by (intros E; rewrite E in Hval1; lia).
  assert (Habs : Z.abs (man x1) <= Z.abs z).
  { rewrite <- Hval1, Z.abs_mul, (Z.abs_eq (2 ^ exp x1)) by lia. nia. }
  destruct (normalize_exact (man x1) (exp x1) prec) as [Hle2 Hval2];
    [done|change prec with 53; lia|done|].
  rewrite normalize_nonzero by done.
  set (x2 := normalize (man x1) (exp x1) prec) in *.
  exists x2. split; [done|]. split; [lia|].
  transitivity (man x1 * 2 ^ exp x1); [|exact Hval1].
  replace (2 ^ exp x2) with (2 ^ (exp x2 - exp x1) * 2 ^ exp x1)
    by (rewrite <- Z.pow_add_r by lia; f_equal; lia).
  by rewrite Z.mul_assoc, Hval2.
Qed.

Lemma measured_int_value_preserved_witness :
  exists x,
    outcome (a ← MeasuredParameter_call 1%nat; _evaluate (Sym a)) demo_state
      = inr (Num (PyFloat x)) /\
    0 <= exp x /\
    man x * 2 ^ exp x = 3.
Proof.
  apply (measured_int_value_preserved demo_state 1%nat
           (mkRegRef 1 true (Some (PyInt 3))) 3); [reflexivity..|discriminate|reflexivity].
Defined.

(** ** Dependencies and the store *)

(** When [get_measurement_deps] returns, every measured atom of the
    expression is bound and the result is the set of their RegRefs. *)
Lemma get_measurement_deps_inv st e (D : gset ref) :
  outcome (get_measurement_deps (Sym e)) st = inr D <->
  (forall n, contains (MeasuredParameter n) e -> is_Some (regref_attr st !! n)) /\
  (forall r, r ∈ D <->
     exists n, contains (MeasuredParameter n) e /\ regref_attr st !! n = Some r).
Proof.
  unfold outcome, get_measurement_deps. simpl. split.
  - intros Hrun.
    assert (Hbound : forall n, contains (MeasuredParameter n) e ->
                               is_Some (regref_attr st !! n)).
    { intros n Hc. destruct (regref_attr st !! n) as [r|] eqn:E; [by eexists|].
      rewrite (add_regrefs_unbound st _ ∅ n) in Hrun; [done| |done].
      by apply elem_of_elements, atoms_contains. }
    split; [done|].
    destruct (add_regrefs_spec st (elements (atoms_MeasuredParameter e)) ∅)
      as (D' & Hrun' & HD').
    { apply Forall_forall. intros k Hk. apply Hbound.
      by apply atoms_contains, elem_of_elements. }
    rewrite Hrun' in Hrun. simpl in Hrun. injection Hrun as <-.
    intros r. rewrite HD'. split.
    + intros [H|(k & Hk & Hr)]; [by apply not_elem_of_empty in H|].
      exists k. split; [|done]. by apply atoms_contains, elem_of_elements.
    + intros (n & Hc & Hr). right. exists n. split; [|done].
      by apply elem_of_elements, atoms_contains.
  - intros [Hbound HD].
    destruct (add_regrefs_spec st (elements (atoms_MeasuredParameter e)) ∅)
      as (D' & Hrun' & HD').
    { apply Forall_forall. intros k Hk. apply Hbound.
      by apply atoms_contains, elem_of_elements. }
    rewrite Hrun'. simpl. f_equal. apply set_eq. intros r.
    rewrite HD, HD'. split.
    + intros [H|(k & Hk & Hr)]; [by apply not_elem_of_empty in H|].
      exists k. split; [|done]. by apply atoms_contains, elem_of_elements.
    + intros (n & Hc & Hr). right. exists n. split; [|done].
      by apply elem_of_elements, atoms_contains.
Qed.

Lemma get_measurement_deps_atom st name r :
  regref_attr st !! name = Some r ->
  outcome (get_measurement_deps (Sym (MeasuredParameter name))) st = inr {[ r ]}.
Proof.
  intros Hr. apply get_measurement_deps_inv. split.
  - intros n Hc. inversion Hc; subst. by eexists.
  - intros r'. rewrite elem_of_singleton. split.
    + intros ->. exists name. split; [constructor|done].
    + intros (n & Hc & Hn). inversion Hc; subst. congruence.
Qed.

(** X8. The measured parameter constructed from an active RegRef depends
    on that RegRef and on no other: [get_measurement_deps] of the new atom
    is the singleton of the RegRef it was constructed from. *)
Theorem constructed_atom_depends_on_its_regref (st : state) (r : ref) (rr : RegRef) :
  regrefs st !! r = Some rr ->
  active rr = true ->
  outcome (a ← MeasuredParameter_call r; get_measurement_deps (Sym a)) st = inr {[ r ]}.
Proof.
  intros Hrr Hact. unfold outcome at 1.
  rewrite (MeasuredParameter_call_then st r rr) by done.
  apply get_measurement_deps_atom. simpl. apply lookup_insert_eq.
Qed.

Lemma constructed_atom_depends_on_its_regref_witness :
  outcome (a ← MeasuredParameter_call 7%nat; get_measurement_deps (Sym a)) twin_state
    = inr {[ 7%nat ]}.
Proof.
  apply (constructed_atom_depends_on_its_regref twin_state 7%nat (mkRegRef 4 true None));
    reflexivity.
Defined.

(** X9. Symbols being interned by name, constructing a measured parameter
    from a second RegRef with the same index rebinds the atom made from the
    first: afterwards the first atom depends on the second RegRef, and the
    first RegRef is no longer among its dependencies. *)
Theorem same_index_construction_rebinds
    (st : state) (r1 r2 : ref) (rr1 rr2 : RegRef) :
  r1 <> r2 ->
  regrefs st !! r1 = Some rr1 ->
  regrefs st !! r2 = Some rr2 ->
  ind rr1 = ind rr2 ->
  active rr1 = true ->
  active rr2 = true ->
  exists a1 a2 st1 st2,
    MeasuredParameter_call r1 st = (st1, inr a1) /\
    MeasuredParameter_call r2 st1 = (st2, inr a2) /\
    outcome (get_measurement_deps (Sym a1)) st1 = inr {[ r1 ]} /\
    outcome (get_measurement_deps (Sym a1)) st2 = inr {[ r2 ]} /\
    r1 ∉ ({[ r2 ]} : gset ref).
Proof.
  intros Hne H1 H2 Hind Hact1 Hact2.
  exists (MeasuredParameter (MeasuredParameter_name rr1)),
         (MeasuredParameter (MeasuredParameter_name rr2)),
         (set_regref_attr (MeasuredParameter_name rr1) r1 st),
         (set_regref_attr (MeasuredParameter_name rr2) r2
            (set_regref_attr (MeasuredParameter_name rr1) r1 st)).
  split; [by apply MeasuredParameter_call_active|].
  split; [by apply MeasuredParameter_call_active|].
  split; [apply get_measurement_deps_atom; simpl; apply lookup_insert_eq|].
  split.
  - apply get_measurement_deps_atom. simpl.
    unfold MeasuredParameter_name. rewrite Hind. apply lookup_insert_eq.
  - by rewrite not_elem_of_singleton.
Qed.

Lemma same_index_construction_rebinds_witness :
  exists a1 a2 st1 st2,
    MeasuredParameter_call 7%nat twin_state = (st1, inr a1) /\
    MeasuredParameter_call 8%nat st1 = (st2, inr a2) /\
    outcome (get_measurement_deps (Sym a1)) st1 = inr {[ 7%nat ]} /\
    outcome (get_measurement_deps (Sym a1)) st2 = inr {[ 8%nat ]} /\
    7%nat ∉ ({[ 8%nat ]} : gset ref).
Proof.
  apply (same_index_construction_rebinds twin_state 7%nat 8%nat
           (mkRegRef 4 true None) (mkRegRef 4 true (Some (PyInt 2))));
    [discriminate|reflexivity..].
Defined.

(** X10. RegRefs with different indices never share an atom: after a
    measured parameter has been constructed from each, each atom still
    depends on its own RegRef. *)
Theorem different_index_constructions_independent
    (st : state) (r1 r2 : ref) (rr1 rr2 : RegRef) :
  regrefs st !! r1 = Some rr1 ->
  regrefs st !! r2 = Some rr2 ->
  ind rr1 <> ind rr2 ->
  active rr1 = true ->
  active rr2 = true ->
  exists a1 a2 st1 st2,
    MeasuredParameter_call r1 st = (st1, inr a1) /\
    MeasuredParameter_call r2 st1 = (st2, inr a2) /\
    a1 <> a2 /\
    outcome (get_measurement_deps (Sym a1)) st2 = inr {[ r1 ]} /\
    outcome (get_measurement_deps (Sym a2)) st2 = inr {[ r2 ]}.
Proof.
  intros H1 H2 Hind Hact1 Hact2.
  assert (Hname : MeasuredParameter_name rr2 <> MeasuredParameter_name rr1).
  { intros E. apply Hind. symmetry. by apply MeasuredParameter_name_inj. }
  exists (MeasuredParameter (MeasuredParameter_name rr1)),
         (MeasuredParameter (MeasuredParameter_name rr2)),
         (set_regref_attr (MeasuredParameter_name rr1) r1 st),
         (set_regref_attr (MeasuredParameter_name rr2) r2
            (set_regref_attr (MeasuredParameter_name rr1) r1 st)).
  split; [by apply MeasuredParameter_call_active|].
  split; [by apply MeasuredParameter_call_active|].
  split; [congruence|]. split.
  - apply get_measurement_deps_atom. simpl.
    rewrite lookup_insert_ne by done. apply lookup_insert_eq.
  - apply get_measurement_deps_atom. simpl. apply lookup_insert_eq.
Qed.

Lemma different_index_constructions_independent_witness :
  exists a1 a2 st1 st2,
    MeasuredParameter_call 0%nat demo_state = (st1, inr a1) /\
    MeasuredParameter_call 1%nat st1 = (st2, inr a2) /\
    a1 <> a2 /\
    outcome (get_measurement_deps (Sym a1)) st2 = inr {[ 0%nat ]} /\
    outcome (get_measurement_deps (Sym a2)) st2 = inr {[ 1%nat ]}.
Proof.
  apply (different_index_constructions_independent demo_state 0%nat 1%nat
           (mkRegRef 0 true None) (mkRegRef 1 true (Some (PyInt 3))));
    [reflexivity|reflexivity|discriminate|reflexivity|reflexivity].
Defined.

Lemma eval_evalf_set_val st name r r' v :
  regref_attr st !! name = Some r' ->
  r' <> r ->
  outcome (MeasuredParameter_eval_evalf name) (set_val r v st)
    = outcome (MeasuredParameter_eval_evalf name) st.
Proof.
  intros Hr' Hne. unfold MeasuredParameter_eval_evalf, getattr_regref, load.
  unfold_monad. simpl. rewrite Hr'. simpl.
  rewrite lookup_alter_ne by congruence.
  destruct (regrefs st !! r') as [rr|]; simpl; [|done].
  by destruct (val rr) as [[z|x|re im]|].
Qed.

(** The outcome of numeric evaluation is decided by what the hook gives
    for the measured atoms of the tree. *)
Lemma evalf_rec_ext st st' e :
  (forall n, contains (MeasuredParameter n) e ->
     outcome (MeasuredParameter_eval_evalf n) st'
       = outcome (MeasuredParameter_eval_evalf n) st) ->
  outcome (evalf_rec MeasuredParameter_eval_evalf e) st'
    = outcome (evalf_rec MeasuredParameter_eval_evalf e) st.
Proof.
  induction e as [z|x| |name|name|args IH|args IH] using Basic_tree_ind;
    intros Hhook; simpl; try reflexivity.
  - rewrite !outcome_bind by apply pure_eval_evalf.
    rewrite Hhook by constructor.
    destruct (outcome (MeasuredParameter_eval_evalf name) st) as [x|xe]; [done|].
    by destruct xe.
  - rewrite !outcome_bind
      by (apply pure_mapM, Forall_forall; intros; apply pure_evalf_rec).
    rewrite !outcome_mapM by apply pure_evalf_rec.
    replace (map (fun a => outcome (evalf_rec MeasuredParameter_eval_evalf a) st') args)
      with (map (fun a => outcome (evalf_rec MeasuredParameter_eval_evalf a) st) args);
      [by destruct (collect _)|].
    apply Forall_fmap_ext. rewrite Forall_forall in IH |- *.
    intros a Ha. symmetry. apply IH; [done|].
    intros n Hn. apply Hhook. by eapply contains_Add.
  - rewrite !outcome_bind
      by (apply pure_mapM, Forall_forall; intros; apply pure_evalf_rec).
    rewrite !outcome_mapM by apply pure_evalf_rec.
    replace (map (fun a => outcome (evalf_rec MeasuredParameter_eval_evalf a) st') args)
      with (map (fun a => outcome (evalf_rec MeasuredParameter_eval_evalf a) st) args);
      [by destruct (collect _)|].
    apply Forall_fmap_ext. rewrite Forall_forall in IH |- *.
    intros a Ha. symmetry. apply IH; [done|].
    intros n Hn. apply Hhook. by eapply contains_Mul.
Qed.

Lemma outcome_xxx_Sym st e :
  outcome (xxx (Sym e)) st =
    match outcome (evalf_rec MeasuredParameter_eval_evalf e) st with
    | inl x => inl x
    | inr r =>
        let p' := to_Basic r in
        outcome (if negb (truthy (is_real p')) then c ← complex_ p'; mret (Num c)
                 else if truthy (is_integer p') then n ← int_ p'; mret (Num n)
                 else x ← float_ p'; mret (Num x)) st
    end.
Proof.
  unfold xxx, evalf. simpl.
  rewrite outcome_bind
    by (apply pure_bind; [apply pure_evalf_rec|intros; apply pure_ret]).
  rewrite outcome_bind by apply pure_evalf_rec.
  by destruct (outcome (evalf_rec _ e) st).
Qed.

Lemma xxx_ext st st' e :
  outcome (evalf_rec MeasuredParameter_eval_evalf e) st'
    = outcome (evalf_rec MeasuredParameter_eval_evalf e) st ->
  outcome (xxx (Sym e)) st' = outcome (xxx (Sym e)) st.
Proof.
  intros H. rewrite (outcome_xxx_Sym st'), (outcome_xxx_Sym st), H.
  destruct (outcome (evalf_rec _ e) st) as [x|r]; [done|]. simpl.
  unfold complex_, int_, float_, outcome. unfold_monad. simpl.
  repeat case_match; by simplify_eq/=.
Qed.

(** X11. The dependencies are sound for evaluation: recording a
    measurement on a RegRef that is not among [get_measurement_deps] of an
    expression leaves the outcome of evaluating the expression as it
    was. *)
Theorem evaluation_depends_only_on_deps
    (st : state) (e : Basic) (D : gset ref) (r : ref) (v : pynum) :
  outcome (get_measurement_deps (Sym e)) st = inr D ->
  r ∉ D ->
  outcome (_evaluate (Sym e)) (set_val r v st) = outcome (_evaluate (Sym e)) st.
Proof.
  intros HD Hr. apply get_measurement_deps_inv in HD as [Hbound HD].
  unfold outcome. rewrite !evaluate_scalar by done.
  apply xxx_ext, evalf_rec_ext. intros n Hc.
  destruct (Hbound n Hc) as [r' Hr'].
  apply eval_evalf_set_val with r'; [done|].
  intros ->. apply Hr, HD. eauto.
Qed.

Lemma evaluation_depends_only_on_deps_witness :
  outcome (_evaluate (Sym demo_sum)) (set_val 0%nat (PyInt 9) demo_state)
    = outcome (_evaluate (Sym demo_sum)) demo_state.
Proof.
  apply (evaluation_depends_only_on_deps demo_state demo_sum {[ 1%nat; 2%nat ]}).
  - by vm_compute.
  - intros [H|H]%elem_of_union; apply elem_of_singleton in H; discriminate.
Defined.

Lemma get_measurement_deps_bound st e :
  (forall n, contains (MeasuredParameter n) e -> is_Some (regref_attr st !! n)) ->
  exists D : gset ref,
    outcome (get_measurement_deps (Sym e)) st = inr D /\
    forall r, r ∈ D <->
      exists n, contains (MeasuredParameter n) e /\ regref_attr st !! n = Some r.
Proof.
  intros Hbound.
  destruct (add_regrefs_spec st (elements (atoms_MeasuredParameter e)) ∅)
    as (D & Hrun & _).
  { apply Forall_forall. intros k Hk. apply Hbound.
    by apply atoms_contains, elem_of_elements. }
  assert (Hout : outcome (get_measurement_deps (Sym e)) st = inr D).
  { unfold outcome, get_measurement_deps. simpl. by rewrite Hrun. }
  exists D. split; [done|]. by apply get_measurement_deps_inv in Hout as [_ HD].
Qed.

(** X12. Dependencies compose: the dependencies of a sum or of a product
    are the union of the dependencies of its arguments. *)
Theorem deps_of_node_is_union (st : state) (args : list Basic) (D : gset ref) :
  outcome (get_measurement_deps (Sym (Add args))) st = inr D \/
  outcome (get_measurement_deps (Sym (Mul args))) st = inr D ->
  (forall a, a ∈ args ->
     exists Da, outcome (get_measurement_deps (Sym a)) st = inr Da /\ Da ⊆ D) /\
  (forall r, r ∈ D ->
     exists a Da, a ∈ args /\
       outcome (get_measurement_deps (Sym a)) st = inr Da /\ r ∈ Da).
Proof.
  intros Hnode.
  assert (Hb : forall a n, a ∈ args -> contains (MeasuredParameter n) a ->
                           is_Some (regref_attr st !! n)).
  { intros a n Ha Hc.
    destruct Hnode as [H|H]; apply get_measurement_deps_inv in H as [Hbound _];
      apply Hbound; [by eapply contains_Add|by eapply contains_Mul]. }
  assert (HD : forall r, r ∈ D <->
            exists a n, a ∈ args /\ contains (MeasuredParameter n) a /\
                        regref_attr st !! n = Some r).
  { intros r.
    destruct Hnode as [H|H]; apply get_measurement_deps_inv in H as [_ HD];
      rewrite HD; split.
    - intros (n & Hc & Hr). inversion Hc; subst. eauto.
    - intros (a & n & Ha & Hc & Hr). exists n. split; [by eapply contains_Add|done].
    - intros (n & Hc & Hr). inversion Hc; subst. eauto.
    - intros (a & n & Ha & Hc & Hr). exists n. split; [by eapply contains_Mul|done]. }
  assert (Harg : forall a, a ∈ args ->
            exists Da, outcome (get_measurement_deps (Sym a)) st = inr Da /\
              forall r, r ∈ Da <->
                exists n, contains (MeasuredParameter n) a /\ regref_attr st !! n = Some r).
  { intros a Ha.
    apply get_measurement_deps_bound. intros n Hc. by apply (Hb a). }
  split.
  - intros a Ha. destruct (Harg a Ha) as (Da & Hrun & HDa).
    exists Da. split; [done|]. intros r Hr. apply HD.
    apply HDa in Hr as (n & Hc & Hn). eauto.
  - intros r Hr. apply HD in Hr as (a & n & Ha & Hc & Hn).
    destruct (Harg a Ha) as (Da & Hrun & HDa).
    exists a, Da. split; [done|]. split; [done|]. apply HDa. eauto.
Qed.

Lemma deps_of_node_is_union_witness :
  (forall a, a ∈ [MeasuredParameter "q1"; Mul [Integer 2; MeasuredParameter "q2"]] ->
     exists Da, outcome (get_measurement_deps (Sym a)) demo_state = inr Da /\
                Da ⊆ {[ 1%nat; 2%nat ]}) /\
  (forall r, r ∈ ({[ 1%nat; 2%nat ]} : gset ref) ->
     exists a Da, a ∈ [MeasuredParameter "q1"; Mul [Integer 2; MeasuredParameter "q2"]] /\
       outcome (get_measurement_deps (Sym a)) demo_state = inr Da /\ r ∈ Da).
Proof.
  apply (deps_of_node_is_union demo_state
           [MeasuredParameter "q1"; Mul [Integer 2; MeasuredParameter "q2"]]
           {[ 1%nat; 2%nat ]}).
  left. by vm_compute.
Defined.



(** X14. What blocks an evaluation is one of its dependencies: when
    evaluating an expression raises [ParameterError], one of the RegRefs
    that [get_measurement_deps] returns for it has no value yet. *)
Theorem ParameterError_blames_a_dependency (st : state) (e : Basic) (D : gset ref) :
  outcome (_evaluate (Sym e)) st = inl ParameterError ->
  outcome (get_measurement_deps (Sym e)) st = inr D ->
  exists r rr, r ∈ D /\ regrefs st !! r = Some rr /\ val rr = None.
Proof.
  intros Hev HD. unfold outcome in Hev. rewrite evaluate_scalar in Hev by done.
  destruct (xxx_ParameterError_inv st (Sym e) Hev)
    as (e' & name & [= <-] & Hc & (r & rr & Hr & Hrr & Hv)).
  exists r, rr. split; [|done].
  apply get_measurement_deps_inv in HD as [_ HD]. apply HD. eauto.
Qed.

Lemma ParameterError_blames_a_dependency_witness :
  exists r rr, r ∈ ({[ 0%nat; 1%nat ]} : gset ref) /\
               regrefs demo_state !! r = Some rr /\ val rr = None.
Proof.
  apply (ParameterError_blames_a_dependency demo_state demo_pending); by vm_compute.
Defined.

(** ** When evaluation succeeds *)

Lemma collect_numeric {A : Type} (f : A -> exn + evalf_result) (l : list A) :
  Forall (fun a => exists re im, f a = inr (Numeric re im)) l ->
  exists rs zs, collect (map f l) = inr rs /\ all_numeric rs = Some zs.
Proof.
  induction 1 as [|a l (re & im & Ha) _ (rs & zs & Hrs & Hzs)]; simpl.
  - by exists [], [].
  - exists (Numeric re im :: rs), ((re, im) :: zs).
    rewrite Ha, Hrs. simpl. by rewrite Hzs.
Qed.

Lemma evalf_rec_numeric st e :
  (forall n, ~ contains (FreeParameter n) e) ->
  (forall n, contains (MeasuredParameter n) e ->
     exists r, regref_attr st !! n = Some r /\ measured_real st r) ->
  exists re im,
    outcome (evalf_rec MeasuredParameter_eval_evalf e) st = inr (Numeric re im).
Proof.
  induction e as [z|x| |name|name|args IH|args IH] using Basic_tree_ind;
    intros Hfree Hmeas; simpl; try (by do 2 eexists).
  - rewrite outcome_bind by apply pure_eval_evalf.
    destruct (Hmeas name) as (r & Hr & rr & Hrr & Hv); [constructor|].
    unfold MeasuredParameter_eval_evalf, getattr_regref, load.
    unfold_monad. simpl. rewrite Hr. simpl. rewrite Hrr. simpl.
    destruct Hv as [[z ->]|[x ->]]; simpl; by do 2 eexists.
  - destruct (Hfree name). constructor.
  - rewrite outcome_bind
      by (apply pure_mapM, Forall_forall; intros; apply pure_evalf_rec).
    rewrite outcome_mapM by apply pure_evalf_rec.
    destruct (collect_numeric
                (fun a => outcome (evalf_rec MeasuredParameter_eval_evalf a) st) args)
      as (rs & zs & -> & Hzs).
    { rewrite Forall_forall in IH |- *. intros a Ha. apply IH; [done| |].
      - intros n Hc. apply (Hfree n). by eapply contains_Add.
      - intros n Hc. apply Hmeas. by eapply contains_Add. }
    unfold outcome, combine. unfold_monad. simpl. rewrite Hzs. by do 2 eexists.
  - rewrite outcome_bind
      by (apply pure_mapM, Forall_forall; intros; apply pure_evalf_rec).
    rewrite outcome_mapM by apply pure_evalf_rec.
    destruct (collect_numeric
                (fun a => outcome (evalf_rec MeasuredParameter_eval_evalf a) st) args)
      as (rs & zs & -> & Hzs).
    { rewrite Forall_forall in IH |- *. intros a Ha. apply IH; [done| |].
      - intros n Hc. apply (Hfree n). by eapply contains_Mul.
      - intros n Hc. apply Hmeas. by eapply contains_Mul. }
    unfold outcome, combine. unfold_monad. simpl. rewrite Hzs. by do 2 eexists.
Qed.

(** Every number [evalf] assembles converts to a Python number. *)
Lemma of_complex_converts st re im :
  let p' := of_complex re im in
  exists n,
    outcome (if negb (truthy (is_real p')) then c ← complex_ p'; mret (Num c)
             else if truthy (is_integer p') then n ← int_ p'; mret (Num n)
             else x ← float_ p'; mret (Num x)) st = inr (Num n).
Proof.
  unfold of_complex.
  destruct (is_zero (normalize (man im) (exp im) prec)) eqn:Him;
    destruct (is_zero (normalize (man re) (exp re) prec)) eqn:Hre; simpl;
    rewrite ?Him, ?Hre; simpl; rewrite ?Him, ?Hre; simpl; by eexists.
Qed.

(** X15. For an expression built from numbers and measured atoms by sums
    and products, nested to any depth, with no free parameter in it: once
    every RegRef it depends on holds an int or a finite float, its
    evaluation returns a Python number and leaves the store as it was.
    The proof does not look at the value the sum or product takes; powers
    and function applications are not among the trees of [Basic]. *)
Theorem evaluation_succeeds_when_measured (st : state) (e : Basic) (D : gset ref) :
  outcome (get_measurement_deps (Sym e)) st = inr D ->
  (forall r, r ∈ D -> measured_real st r) ->
  (forall n, ~ contains (FreeParameter n) e) ->
  exists n, _evaluate (Sym e) st = (st, inr (Num n)).
Proof.
  intros HD Hreal Hfree. apply get_measurement_deps_inv in HD as [Hbound HD].
  destruct (evalf_rec_numeric st e Hfree) as (re & im & Hnum).
  { intros n Hc. destruct (Hbound n Hc) as [r Hr]. exists r. split; [done|].
    apply Hreal, HD. eauto. }
  destruct (of_complex_converts st re im) as [n Hn].
  exists n. rewrite evaluate_scalar by done.
  assert (Hout : outcome (xxx (Sym e)) st = inr (Num n))
    by (by rewrite outcome_xxx_Sym, Hnum).
  assert (Hst := pure_xxx (Sym e) st). unfold outcome, final in *.
  destruct (xxx (Sym e) st). simpl in *. congruence.
Qed.

Ltac invert_contains :=
  repeat match goal with
  | H : contains _ (Add _) |- _ => inversion H; subst; clear H
  | H : contains _ (Mul _) |- _ => inversion H; subst; clear H
  | H : contains (FreeParameter _) (MeasuredParameter _) |- _ => inversion H
  | H : contains (FreeParameter _) (Integer _) |- _ => inversion H
  | H : _ ∈ _ :: _ |- _ => apply elem_of_cons in H as [->|H]
  | H : _ ∈ [] |- _ => by apply elem_of_nil in H
  end.

Lemma evaluation_succeeds_when_measured_witness :
  exists n, _evaluate (Sym demo_sum) demo_state = (demo_state, inr (Num n)).
Proof.
  apply (evaluation_succeeds_when_measured demo_state demo_sum {[ 1%nat; 2%nat ]}).
  - by vm_compute.
  - intros r [H|H]%elem_of_union; apply elem_of_singleton in H; subst r.
    + exists (mkRegRef 1 true (Some (PyInt 3))). split; [reflexivity|]. left. by exists 3.
    + exists (mkRegRef 2 true (Some (PyFloat (Mpf.mk 1 (-1))))).
      split; [reflexivity|]. right. by eexists.
  - intros n Hc. unfold demo_sum in Hc. invert_contains.
Defined.

(** ** Writes that evaluation does not see *)

Lemma eval_evalf_set_active st name r b :
  outcome (MeasuredParameter_eval_evalf name) (set_active r b st)
    = outcome (MeasuredParameter_eval_evalf name) st.
Proof.
  unfold MeasuredParameter_eval_evalf, getattr_regref, load.
  unfold_monad. simpl.
  destruct (regref_attr st !! name) as [r'|]; simpl; [|done].
  destruct (decide (r = r')) as [->|Hne].
  - rewrite lookup_alter_eq.
    destruct (regrefs st !! r') as [rr|]; simpl; [|done].
    by destruct (val rr) as [[z|x|re im]|].
  - rewrite lookup_alter_ne by done.
    destruct (regrefs st !! r') as [rr|]; simpl; [|done].
    by destruct (val rr) as [[z|x|re im]|].
Qed.

(** X16. The [active] flag is looked at by the constructor only: an
    expression evaluates to the same outcome, and has the same
    dependencies, after any of the RegRefs is released or revived. *)
Theorem evaluation_ignores_active (st : state) (e : Basic) (r : ref) (b : bool) :
  outcome (_evaluate (Sym e)) (set_active r b st) = outcome (_evaluate (Sym e)) st /\
  outcome (get_measurement_deps (Sym e)) (set_active r b st)
    = outcome (get_measurement_deps (Sym e)) st.
Proof.
  split.
  - unfold outcome. rewrite !evaluate_scalar by done.
    apply xxx_ext, evalf_rec_ext. intros n _. apply eval_evalf_set_active.
  - unfold outcome, get_measurement_deps. simpl.
    generalize (∅ : gset ref). induction (elements _) as [|k ks IH]; intros acc; simpl.
    + done.
    + unfold getattr_regref. unfold_monad. simpl.
      destruct (regref_attr st !! k) as [r'|]; simpl; [|done]. apply IH.
Qed.

Lemma eval_evalf_same_registers st st' name :
  regrefs st' = regrefs st ->
  regref_attr st' = regref_attr st ->
  outcome (MeasuredParameter_eval_evalf name) st'
    = outcome (MeasuredParameter_eval_evalf name) st.
Proof.
  intros Hregs Hattr. unfold MeasuredParameter_eval_evalf, getattr_regref, load.
  unfold_monad. simpl. rewrite Hattr.
  destruct (regref_attr st !! name) as [r'|]; simpl; [|done]. rewrite Hregs.
  destruct (regrefs st !! r') as [rr|]; simpl; [|done].
  by destruct (val rr) as [[z|x|re im]|].
Qed.

(** X17. [FreeParameter(name)] returns the interned symbol and resets its
    owner: whatever the store said about the owner of the free parameter
    called [name], also when a Program owned it, the owner is [None] after
    the call; no RegRef and no measured atom is touched, and every
    expression evaluates as before. *)
Theorem FreeParameter_call_resets_owner (st : state) (name : string) :
  exists st',
    FreeParameter_call name st = (st', inr (FreeParameter name)) /\
    owner_attr st' !! name = Some None /\
    (forall prog, FreeParameter_call name (set_owner name prog st) = (st', inr (FreeParameter name))) /\
    regrefs st' = regrefs st /\
    regref_attr st' = regref_attr st /\
    forall e, outcome (_evaluate (Sym e)) st' = outcome (_evaluate (Sym e)) st.
Proof.
  eexists. split; [reflexivity|]. simpl.
  split; [apply lookup_insert_eq|].
  split.
  { intros prog. unfold FreeParameter_call, set_owner. unfold_monad. simpl.
    by rewrite insert_insert_eq. }
  split; [done|]. split; [done|].
  intros e. unfold outcome. rewrite !evaluate_scalar by done.
  apply xxx_ext, evalf_rec_ext. intros n _. by apply eval_evalf_same_registers.
Qed.
